(** * Incremental blockchain synchronizer: model and properties

    Shallow embedding of [blockchain_sync.py] (class [BlockchainSync]) and
    of [create_database.py].  Python values coming from the node are JSON
    values; exceptions are values of type [exn]; the methods run in a small
    state-and-exception monad whose state holds the SQLite store (committed
    and pending rows), the cursor's [lastrowid], the log file, the requests
    sent to the node and the object's field [last_synced_height]. *)

From Stdlib Require Import ZArith String List Lia DecimalString.
From stdpp Require Import base gmap strings list.

Set Warnings "-register-all".

Open Scope Z_scope.
Open Scope string_scope.
Open Scope list_scope.

(** ** Python values *)

(** A decoded JSON document, as [response.json()] returns it.  Objects keep
    their members in order; a float is carried as its literal. *)
Inductive json : Type :=
| JNull
| JBool (b : bool)
| JInt (z : Z)
| JFloat (literal : string)
| JStr (s : string)
| JList (l : list json)
| JDict (d : list (string * json)).

(** [d.get(k)] / [k in d] on a dict. *)
Fixpoint dict_get (k : string) (d : list (string * json)) : option json :=
  match d with
  | [] => None
  | (k', v) :: d' => if String.eqb k k' then Some v else dict_get k d'
  end.

Definition dict_has (k : string) (d : list (string * json)) : bool :=
  match dict_get k d with Some _ => true | None => false end.

(** [needle in hay] on two Python strings. *)
Fixpoint str_contains (needle hay : string) : bool :=
  if String.prefix needle hay then true
  else match hay with
       | EmptyString => false
       | String _ hay' => str_contains needle hay'
       end.

(** ['k' in l] on a list, for a string [k]. *)
Definition list_has_str (k : string) (l : list json) : bool :=
  existsb (fun j => match j with JStr s => String.eqb k s | _ => false end) l.

(** ** Exceptions *)

Inductive exn_kind : Type :=
| SqliteError          (* sqlite3.Error and its subclasses *)
| RequestException     (* requests.exceptions.RequestException, HTTPError *)
| JSONDecodeError
| KeyError
| TypeError
| AttributeError
| IndexError
| OverflowError
| OSError
| PlainException.      (* raise Exception(...) *)

(** [response] is the text of [e.response] when the exception carries an
    HTTP response, as an [HTTPError] raised by [raise_for_status] does. *)
Record exn : Type := mkExn {
  kind : exn_kind; msg : string; response : option string }.

(** [str(e)] *)
Definition str_exn (e : exn) : string := msg e.

Definition is_sqlite_error (e : exn) : bool :=
  match kind e with SqliteError => true | _ => false end.

Definition is_request_exception (e : exn) : bool :=
  match kind e with RequestException => true | _ => false end.

Definition is_json_decode_error (e : exn) : bool :=
  match kind e with JSONDecodeError => true | _ => false end.

Inductive result (A : Type) : Type :=
| Ok (a : A)
| Raise (e : exn).
Arguments Ok {A} a.
Arguments Raise {A} e.

(** [str(KeyError(k))] is the repr of the key. *)
Definition key_error (k : string) : exn :=
  mkExn KeyError ("'" +:+ k +:+ "'") None.

(** ** The relational store *)

(** A value bound to a [?] placeholder. *)
Inductive sqlval : Type :=
| SqlNull
| SqlInt (z : Z)
| SqlReal (literal : string)
| SqlText (s : string).

Record block_row : Type := mkBlockRow {
  b_hash : sqlval; b_height : sqlval; b_version : sqlval; b_timestamp : sqlval;
  b_size : sqlval; b_weight : sqlval; b_merkle_root : sqlval; b_nonce : sqlval;
  b_bits : sqlval; b_difficulty : sqlval; b_previous_hash : sqlval;
  b_next_hash : sqlval }.

Record tx_row : Type := mkTxRow {
  t_txid : sqlval; t_block_id : Z; t_version : sqlval; t_size : sqlval;
  t_weight : sqlval; t_fee : sqlval }.

Record input_row : Type := mkInputRow {
  i_transaction_id : Z; i_previous_txid : sqlval; i_previous_vout : sqlval;
  i_sequence : sqlval; i_script_sig : sqlval }.

Record output_row : Type := mkOutputRow {
  o_transaction_id : Z; o_vout : sqlval; o_value : sqlval;
  o_script_pubkey : sqlval; o_address : sqlval }.

(** The four tables; every row is paired with its rowid, the value
    [cursor.lastrowid] gives after the INSERT and the writer stores in the
    rows that refer to it. *)
Record store : Type := mkStore {
  blocks : list (Z * block_row);
  transactions : list (Z * tx_row);
  inputs : list (Z * input_row);
  outputs : list (Z * output_row) }.

Definition empty_store : store := mkStore [] [] [] [].

(** The statements the synchronizer sends to SQLite. *)
Inductive stmt : Type :=
| Connect
| SelectMaxHeight
| InsertBlock (r : block_row)
| InsertTransaction (r : tx_row)
| InsertInput (r : input_row)
| InsertOutput (r : output_row)
| Commit.

Inductive table : Type := Blocks | Transactions | Inputs | Outputs.

(** SQLite gives a new row the largest rowid in use plus one. *)
Definition next_rowid {R : Type} (t : list (Z * R)) : Z :=
  fold_right (fun p acc => Z.max (fst p) acc) 0 t + 1.

(** ** The node *)

Record rpc_request : Type := mkRequest {
  rpc_method : string; rpc_params : list json }.

(** What [requests.post] comes back with. *)
Inductive http_outcome : Type :=
| ConnectionFailed (message : string)
| Response (status_code : Z) (reason url text : string).

(** ** The log file *)

Inductive level : Type := DEBUG | INFO | WARNING | ERROR.

Record log_record : Type := mkLog { lvl : level; line : string }.

(** ** The environment of a run

    The parts of a run that are not code of this repository: the node behind
    the RPC URL, the SQLite engine with the schema provisioned in the
    database file (it rejects a statement with an [sqlite3.Error], when it
    compiles it or when it runs it with its parameters bound, or lets it
    through), and the Python library functions [str], [json.dumps] and
    the JSON decoder. *)
Record World : Type := mkWorld {
  rpc_url : string;
  rpc_user : string;
  node : rpc_request -> http_outcome;
  db_prepare : store -> table -> option string;
  db_check : store -> stmt -> option string;
  py_str : json -> string;
  json_dumps : json -> string;
  json_loads : string -> option json }.

(** ** Program state *)

Record state : Type := mkState {
  committed : store;
  pending : store;
  lastrowid : Z;
  log : list log_record;
  calls : list rpc_request;
  last_synced_height : Z }.

Definition set_committed (c : store) (s : state) : state :=
  mkState c (pending s) (lastrowid s) (log s) (calls s) (last_synced_height s).
Definition set_pending (p : store) (s : state) : state :=
  mkState (committed s) p (lastrowid s) (log s) (calls s) (last_synced_height s).
Definition set_lastrowid (r : Z) (s : state) : state :=
  mkState (committed s) (pending s) r (log s) (calls s) (last_synced_height s).
Definition add_log (r : log_record) (s : state) : state :=
  mkState (committed s) (pending s) (lastrowid s) (log s ++ [r]) (calls s)
          (last_synced_height s).
Definition add_call (r : rpc_request) (s : state) : state :=
  mkState (committed s) (pending s) (lastrowid s) (log s) (calls s ++ [r])
          (last_synced_height s).
Definition set_last_synced_height (h : Z) (s : state) : state :=
  mkState (committed s) (pending s) (lastrowid s) (log s) (calls s) h.

(** ** The monad *)

Definition M (A : Type) : Type := state -> result A * state.

Definition ret {A : Type} (a : A) : M A := fun s => (Ok a, s).

Definition raise {A : Type} (e : exn) : M A := fun s => (Raise e, s).

Definition bind {A B : Type} (m : M A) (k : A -> M B) : M B :=
  fun s => match m s with
           | (Ok a, s') => k a s'
           | (Raise e, s') => (Raise e, s')
           end.

Notation "'let*' x ':=' m 'in' k" := (bind m (fun x => k))
  (at level 10, x pattern, m at level 100, k at level 200).

Definition lift {A : Type} (r : result A) : M A := fun s => (r, s).

Definition get_state : M state := fun s => (Ok s, s).

Definition modify (f : state -> state) : M unit := fun s => (Ok tt, f s).

(** [try: body except C1 as e: h1 e except C2 as e: h2 e ...]: the first
    clause whose class the exception is an instance of handles it; what a
    handler raises is not caught by the clauses after it. *)
Fixpoint dispatch {A : Type} (clauses : list ((exn -> bool) * (exn -> M A)))
    (e : exn) : M A :=
  match clauses with
  | [] => raise e
  | (catches, handler) :: clauses' =>
      if catches e then handler e else dispatch clauses' e
  end.

Definition try_except {A : Type} (body : M A)
    (clauses : list ((exn -> bool) * (exn -> M A))) : M A :=
  fun s => match body s with
           | (Ok a, s') => (Ok a, s')
           | (Raise e, s') => dispatch clauses e s'
           end.

Definition any_exception (e : exn) : bool := true.

Definition logging (l : level) (text : string) : M unit :=
  modify (add_log (mkLog l text)).

Fixpoint for_each {A : Type} (body : A -> M unit) (l : list A) : M unit :=
  match l with
  | [] => ret tt
  | x :: l' => let* _ := body x in for_each body l'
  end.

(** ** Python operations on decoded JSON *)

Definition type_name (j : json) : string :=
  match j with
  | JNull => "NoneType" | JBool _ => "bool" | JInt _ => "int"
  | JFloat _ => "float" | JStr _ => "str" | JList _ => "list"
  | JDict _ => "dict"
  end.

(** [j[k]] for a string key [k]. *)
Definition subscript (j : json) (k : string) : result json :=
  match j with
  | JDict d => match dict_get k d with
               | Some v => Ok v
               | None => Raise (key_error k)
               end
  | JStr _ => Raise (mkExn TypeError "string indices must be integers" None)
  | JList _ =>
      Raise (mkExn TypeError "list indices must be integers or slices, not str"
                   None)
  | _ => Raise (mkExn TypeError
                  ("'" +:+ type_name j +:+ "' object is not subscriptable") None)
  end.

(** [j.get(k, default)] *)
Definition py_get (j : json) (k : string) (default : json) : result json :=
  match j with
  | JDict d => match dict_get k d with
               | Some v => Ok v
               | None => Ok default
               end
  | _ => Raise (mkExn AttributeError
                  ("'" +:+ type_name j +:+ "' object has no attribute 'get'")
                  None)
  end.

(** [k in j] for a string [k]. *)
Definition py_in (k : string) (j : json) : result bool :=
  match j with
  | JDict d => Ok (dict_has k d)
  | JStr s => Ok (str_contains k s)
  | JList l => Ok (list_has_str k l)
  | _ => Raise (mkExn TypeError
                  ("argument of type '" +:+ type_name j +:+ "' is not iterable")
                  None)
  end.

(** The items [for x in j] runs through. *)
Definition py_iter (j : json) : result (list json) :=
  match j with
  | JList l => Ok l
  | JDict d => Ok (map (fun kv => JStr (fst kv)) d)
  | JStr s => Ok (map (fun c => JStr (String c EmptyString)) (list_ascii_of_string s))
  | _ => Raise (mkExn TypeError
                  ("'" +:+ type_name j +:+ "' object is not iterable") None)
  end.

(** [j[0]] *)
Definition first_item (j : json) : result json :=
  match j with
  | JList (x :: _) => Ok x
  | JList [] => Raise (mkExn IndexError "list index out of range" None)
  | JStr (String c _) => Ok (JStr (String c EmptyString))
  | JStr EmptyString => Raise (mkExn IndexError "string index out of range" None)
  | JDict _ => Raise (mkExn KeyError "0" None)
  | _ => Raise (mkExn TypeError
                  ("'" +:+ type_name j +:+ "' object is not subscriptable") None)
  end.

(** A JSON value used as a height in [+], [max], [<=] and [range].  The node
    reports heights as integers; [True]/[False] count as 1/0, and any other
    value ends the computation with a [TypeError]. *)
Definition as_int (j : json) : result Z :=
  match j with
  | JInt z => Ok z
  | JBool b => Ok (if b then 1 else 0)
  | _ => Raise (mkExn TypeError
                  ("unsupported operand type: '" +:+ type_name j +:+ "'") None)
  end.

(** [range(start, stop)] *)
Definition py_range (start stop : Z) : list Z :=
  map (fun i => start + Z.of_nat i) (seq 0 (Z.to_nat (stop - start))).

(** How the [sqlite3] module binds a Python value to a placeholder. *)
Definition bind_param (j : json) : result sqlval :=
  match j with
  | JNull => Ok SqlNull
  | JBool b => Ok (SqlInt (if b then 1 else 0))
  | JInt z =>
      if ((- 2 ^ 63 <=? z) && (z <? 2 ^ 63))%Z then Ok (SqlInt z)
      else Raise (mkExn OverflowError
                    "Python int too large to convert to SQLite INTEGER" None)
  | JFloat f => Ok (SqlReal f)
  | JStr s => Ok (SqlText s)
  | JList _ | JDict _ =>
      Raise (mkExn SqliteError "Error binding parameter" None)
  end.

(** [SELECT MAX(height) FROM blocks], on a table whose heights are
    integers or NULL: the largest height, the aggregate skipping the NULLs,
    and [None], for the NULL of SQL, when no row has a height.  SQLite is
    dynamically typed, and a column can also hold a REAL or a TEXT value,
    which the query would then return as a Python [float] or [str]; such a
    value has no place in the integer this model of the tracker returns,
    and the statements about the tracker are made for the tables of
    [integer_heights]. *)
Definition height_of (r : Z * block_row) : option Z :=
  match b_height (snd r) with SqlInt z => Some z | _ => None end.


Definition max_height (t : list (Z * block_row)) : option Z :=
  fold_right (fun r acc =>
                match height_of r, acc with
                | Some h, Some a => Some (Z.max h a)
                | Some h, None => Some h
                | None, _ => acc
                end) None t.

Definition z_str (z : Z) : string := NilEmpty.string_of_int (Z.to_int z).

Definition pruned_message : string := "Block not available (pruned data)".

(** ** class BlockchainSync *)

Module BlockchainSync.
Section Methods.

Context (W : World).

Definition sqlite_error (m : string) : exn := mkExn SqliteError m None.

(** The engine compiles a statement on a table, *)
Definition prepare (t : table) : M unit :=
  fun s => match db_prepare W (pending s) t with
           | Some m => (Raise (sqlite_error m), s)
           | None => (Ok tt, s)
           end.

(** and runs it with its parameters bound. *)
Definition run (q : stmt) (effect : state -> state) : M unit :=
  fun s => match db_check W (pending s) q with
           | Some m => (Raise (sqlite_error m), s)
           | None => (Ok tt, effect s)
           end.

(** [sqlite3.connect(self.db_path)]: a new connection sees the committed
    rows. *)
Definition connect : M unit :=
  fun s => match db_check W (committed s) Connect with
           | Some m => (Raise (sqlite_error m), s)
           | None => (Ok tt, set_pending (committed s) s)
           end.

(** [conn.commit()] *)
Definition commit : M unit :=
  run Commit (fun s => set_committed (pending s) s).

(** [with sqlite3.connect(self.db_path) as conn: body]: leaving the block
    commits, leaving it by an exception rolls back. *)
Definition with_connection {A : Type} (body : M A) : M A :=
  let* _ := connect in
  fun s => match body s with
           | (Ok a, s') => (Ok a, set_committed (pending s') s')
           | (Raise e, s') => (Raise e, set_pending (committed s') s')
           end.

Definition insert_block (r : block_row) (s : state) : state :=
  let id := next_rowid (blocks (pending s)) in
  let p := pending s in
  set_lastrowid id
    (set_pending (mkStore (blocks p ++ [(id, r)]) (transactions p) (inputs p)
                          (outputs p)) s).

Definition insert_transaction (r : tx_row) (s : state) : state :=
  let id := next_rowid (transactions (pending s)) in
  let p := pending s in
  set_lastrowid id
    (set_pending (mkStore (blocks p) (transactions p ++ [(id, r)]) (inputs p)
                          (outputs p)) s).

Definition insert_input (r : input_row) (s : state) : state :=
  let id := next_rowid (inputs (pending s)) in
  let p := pending s in
  set_lastrowid id
    (set_pending (mkStore (blocks p) (transactions p) (inputs p ++ [(id, r)])
                          (outputs p)) s).

Definition insert_output (r : output_row) (s : state) : state :=
  let id := next_rowid (outputs (pending s)) in
  let p := pending s in
  set_lastrowid id
    (set_pending (mkStore (blocks p) (transactions p) (inputs p)
                          (outputs p ++ [(id, r)])) s).

Definition _get_last_synced_height : M Z :=
  try_except
    (with_connection
       (let* _ := prepare Blocks in
        let* _ := run SelectMaxHeight (fun s => s) in
        let* s := get_state in
        ret (match max_height (blocks (pending s)) with
             | Some h => h
             | None => 0
             end)))
    [(is_sqlite_error,
      fun e => let* _ := logging ERROR ("Database error: " +:+ str_exn e) in
               ret 0)].

(** [response.raise_for_status()] *)
Definition raise_for_status (status_code : Z) (reason url text : string)
    : M unit :=
  if ((400 <=? status_code) && (status_code <? 500))%Z then
    raise (mkExn RequestException
             (z_str status_code +:+ " Client Error: " +:+ reason
                +:+ " for url: " +:+ url) (Some text))
  else if ((500 <=? status_code) && (status_code <? 600))%Z then
    raise (mkExn RequestException
             (z_str status_code +:+ " Server Error: " +:+ reason
                +:+ " for url: " +:+ url) (Some text))
  else ret tt.

Definition is_none (j : json) : bool :=
  match j with JNull => true | _ => false end.

Definition _make_rpc_call (method : string) (params : option (list json))
    : M json :=
  let* _ := logging DEBUG ("Making RPC call to " +:+ rpc_url W) in
  let* _ := logging DEBUG ("Method: " +:+ method) in
  let* _ := logging DEBUG
              ("Params: " +:+ match params with
                              | Some l => py_str W (JList l)
                              | None => "None"
                              end) in
  try_except
    (let request := mkRequest method (match params with
                                      | Some l => l
                                      | None => []
                                      end) in
     let* _ := modify (add_call request) in
     match node W request with
     | ConnectionFailed m => raise (mkExn RequestException m None)
     | Response status_code reason url text =>
         let* _ := raise_for_status status_code reason url text in
         match json_loads W text with
         | None =>
             raise (mkExn JSONDecodeError
                      "Expecting value: line 1 column 1 (char 0)" (Some text))
         | Some result =>
             let* has_error := lift (py_in "error" result) in
             let* failed :=
               (if has_error then
                  let* err := lift (subscript result "error") in
                  ret (negb (is_none err))
                else ret false) in
             if failed then
               let* err := lift (subscript result "error") in
               let error_msg := "RPC error: " +:+ py_str W err in
               let* _ := logging ERROR error_msg in
               raise (mkExn PlainException error_msg None)
             else lift (subscript result "result")
         end
     end)
    [(is_request_exception,
      fun e =>
        let* _ := logging ERROR ("RPC call failed: " +:+ str_exn e) in
        let* _ := match response e with
                  | Some text => logging ERROR ("Error response: " +:+ text)
                  | None => ret tt
                  end in
        raise e);
     (is_json_decode_error,
      fun e =>
        let* _ := logging ERROR
                    ("Failed to parse RPC response: " +:+ str_exn e) in
        let* _ := logging ERROR
                    ("Raw response: " +:+ match response e with
                                          | Some text => text
                                          | None => "No response"
                                          end) in
        raise e);
     (any_exception,
      fun e =>
        let* _ := logging ERROR
                    ("Unexpected error in RPC call: " +:+ str_exn e) in
        raise e)].

Definition _get_prune_height : M json :=
  try_except
    (let* chain_info := _make_rpc_call "getblockchaininfo" None in
     let* has := lift (py_in "pruneheight" chain_info) in
     if has then lift (subscript chain_info "pruneheight")
     else ret (JInt 0))
    [(any_exception,
      fun e =>
        let* _ := logging ERROR
                    ("Failed to get prune height: " +:+ str_exn e) in
        ret (JInt 0))].

(** The parameter tuples of the four INSERT statements (the mapping from
    the node's payload to rows), evaluated left to right. *)

Definition block_params (block_data : json) : result (list json) :=
  match subscript block_data "hash" with Raise e => Raise e | Ok hash =>
  match subscript block_data "height" with Raise e => Raise e | Ok height =>
  match subscript block_data "version" with Raise e => Raise e | Ok version =>
  match subscript block_data "time" with Raise e => Raise e | Ok time =>
  match subscript block_data "size" with Raise e => Raise e | Ok size =>
  match subscript block_data "weight" with Raise e => Raise e | Ok weight =>
  match subscript block_data "merkleroot" with Raise e => Raise e | Ok merkleroot =>
  match subscript block_data "nonce" with Raise e => Raise e | Ok nonce =>
  match subscript block_data "bits" with Raise e => Raise e | Ok bits =>
  match subscript block_data "difficulty" with Raise e => Raise e | Ok difficulty =>
  match py_get block_data "previousblockhash" JNull with Raise e => Raise e | Ok previous =>
  match py_get block_data "nextblockhash" JNull with Raise e => Raise e | Ok next =>
  Ok [hash; height; version; time; size; weight; merkleroot; nonce; bits;
      difficulty; previous; next]
  end end end end end end end end end end end end.

Definition transaction_params (tx_data : json) : result (list json) :=
  match subscript tx_data "txid" with Raise e => Raise e | Ok txid =>
  match subscript tx_data "version" with Raise e => Raise e | Ok version =>
  match subscript tx_data "size" with Raise e => Raise e | Ok size =>
  match subscript tx_data "weight" with Raise e => Raise e | Ok weight =>
  match py_get tx_data "fee" (JInt 0) with Raise e => Raise e | Ok fee =>
  Ok [txid; version; size; weight; fee]
  end end end end end.

Definition input_params (vin : json) : result (list json) :=
  match py_get vin "txid" (JStr "") with Raise e => Raise e | Ok txid =>
  match py_get vin "vout" (JInt 0) with Raise e => Raise e | Ok vout =>
  match py_get vin "sequence" (JInt 0) with Raise e => Raise e | Ok sequence =>
  match py_get vin "scriptSig" (JDict []) with Raise e => Raise e | Ok script =>
  Ok [txid; vout; sequence; JStr (json_dumps W script)]
  end end end end.

(** [spk.get('addresses', [''])[0] if 'addresses' in spk else None] *)
Definition output_address (spk : json) : result json :=
  match py_in "addresses" spk with
  | Raise e => Raise e
  | Ok true =>
      match py_get spk "addresses" (JList [JStr ""]) with
      | Raise e => Raise e
      | Ok addresses => first_item addresses
      end
  | Ok false => Ok JNull
  end.

Definition output_params (vout : json) : result (list json) :=
  match subscript vout "n" with Raise e => Raise e | Ok n =>
  match subscript vout "value" with Raise e => Raise e | Ok value =>
  match subscript vout "scriptPubKey" with Raise e => Raise e | Ok spk =>
  match output_address spk with Raise e => Raise e | Ok address =>
  Ok [n; value; JStr (json_dumps W spk); address]
  end end end end.

(** Binding a tuple, first placeholder first. *)
Fixpoint bind_params (l : list json) : result (list sqlval) :=
  match l with
  | [] => Ok []
  | j :: l' =>
      match bind_param j with
      | Raise e => Raise e
      | Ok v => match bind_params l' with
                | Raise e => Raise e
                | Ok vs => Ok (v :: vs)
                end
      end
  end.

Definition col (vs : list sqlval) (i : nat) : sqlval := nth i vs SqlNull.

Definition block_row_of (vs : list sqlval) : block_row :=
  mkBlockRow (col vs 0) (col vs 1) (col vs 2) (col vs 3) (col vs 4) (col vs 5)
             (col vs 6) (col vs 7) (col vs 8) (col vs 9) (col vs 10)
             (col vs 11).

Definition tx_row_of (block_id : Z) (vs : list sqlval) : tx_row :=
  mkTxRow (col vs 0) block_id (col vs 1) (col vs 2) (col vs 3) (col vs 4).

Definition input_row_of (tx_id : Z) (vs : list sqlval) : input_row :=
  mkInputRow tx_id (col vs 0) (col vs 1) (col vs 2) (col vs 3).

Definition output_row_of (tx_id : Z) (vs : list sqlval) : output_row :=
  mkOutputRow tx_id (col vs 0) (col vs 1) (col vs 2) (col vs 3).

(** [cursor.execute("INSERT INTO t (...) VALUES (?, ...)", params)] *)
Definition execute_insert (t : table) (params : list json)
    (q : list sqlval -> stmt) (effect : list sqlval -> state -> state)
    : M unit :=
  let* _ := prepare t in
  let* vs := lift (bind_params params) in
  run (q vs) (effect vs).

Definition _store_transaction (tx_data : json) (block_id : Z) : M bool :=
  try_except
    (let* params := lift (transaction_params tx_data) in
     let* _ := execute_insert Transactions params
                 (fun vs => InsertTransaction (tx_row_of block_id vs))
                 (fun vs => insert_transaction (tx_row_of block_id vs)) in
     let* s := get_state in
     let tx_id := lastrowid s in
     let* vins := lift (py_get tx_data "vin" (JList [])) in
     let* vin_items := lift (py_iter vins) in
     let* _ := for_each
                 (fun vin =>
                    let* params := lift (input_params vin) in
                    execute_insert Inputs params
                      (fun vs => InsertInput (input_row_of tx_id vs))
                      (fun vs => insert_input (input_row_of tx_id vs)))
                 vin_items in
     let* vouts := lift (py_get tx_data "vout" (JList [])) in
     let* vout_items := lift (py_iter vouts) in
     let* _ := for_each
                 (fun vout =>
                    let* params := lift (output_params vout) in
                    execute_insert Outputs params
                      (fun vs => InsertOutput (output_row_of tx_id vs))
                      (fun vs => insert_output (output_row_of tx_id vs)))
                 vout_items in
     ret true)
    [(is_sqlite_error,
      fun e =>
        let* _ := logging ERROR
                    ("Database error storing transaction: " +:+ str_exn e) in
        ret false)].

Definition _store_block (block_data : json) : M bool :=
  try_except
    (with_connection
       (let* params := lift (block_params block_data) in
        let* _ := execute_insert Blocks params
                    (fun vs => InsertBlock (block_row_of vs))
                    (fun vs => insert_block (block_row_of vs)) in
        let* s := get_state in
        let block_id := lastrowid s in
        let* txs := lift (py_get block_data "tx" (JList [])) in
        let* tx_items := lift (py_iter txs) in
        let* _ := for_each
                    (fun tx => let* _ := _store_transaction tx block_id in
                               ret tt)
                    tx_items in
        let* _ := commit in
        let* hash := lift (subscript block_data "hash") in
        let* height := lift (subscript block_data "height") in
        let* _ := logging INFO
                    ("Successfully stored block " +:+ py_str W hash
                       +:+ " at height " +:+ py_str W height) in
        ret true))
    [(is_sqlite_error,
      fun e =>
        let* _ := logging ERROR
                    ("Database error storing block: " +:+ str_exn e) in
        ret false)].

(** The body of the inner [try] for one height; [true] is "go on with the
    next height", [false] is [break]. *)
Definition process_height (height : Z) : M bool :=
  let* block_hash := _make_rpc_call "getblockhash" (Some [JInt height]) in
  let* _ := logging DEBUG ("Got block hash: " +:+ py_str W block_hash) in
  let* block_data := _make_rpc_call "getblock" (Some [block_hash; JInt 2]) in
  let* _ := logging DEBUG ("Got block data for height " +:+ z_str height) in
  let* stored := _store_block block_data in
  if stored then
    let* _ := modify (set_last_synced_height height) in
    let* _ := logging INFO
                ("Successfully synced block at height " +:+ z_str height) in
    ret true
  else
    let* _ := logging ERROR
                ("Failed to sync block at height " +:+ z_str height) in
    ret false.

Definition on_height_error (height : Z) (e : exn) : M bool :=
  if str_contains pruned_message (str_exn e) then
    let* _ := logging WARNING
                ("Block at height " +:+ z_str height
                   +:+ " is pruned, skipping") in
    let* _ := modify (set_last_synced_height height) in
    ret true
  else
    let* _ := logging ERROR
                ("Error processing block at height " +:+ z_str height
                   +:+ ": " +:+ str_exn e) in
    ret false.

(** [for height in heights: ...] *)
Fixpoint sync_loop (heights : list Z) : M unit :=
  match heights with
  | [] => ret tt
  | height :: rest =>
      let* _ := logging INFO
                  ("Processing block at height " +:+ z_str height) in
      let* go_on := try_except (process_height height)
                      [(any_exception, on_height_error height)] in
      if go_on then sync_loop rest else ret tt
  end.

Definition sync_latest_blocks : M unit :=
  try_except
    (let* _ := logging INFO "Starting block sync" in
     let* current := _make_rpc_call "getblockcount" None in
     let* _ := logging INFO
                 ("Current blockchain height: " +:+ py_str W current) in
     let* prune := _get_prune_height in
     let* _ := logging INFO ("Prune height: " +:+ py_str W prune) in
     let* s := get_state in
     let* prune_height := lift (as_int prune) in
     let start_height := Z.max (last_synced_height s + 1) prune_height in
     let* _ := logging INFO
                 ("Starting sync from height: " +:+ z_str start_height) in
     let* current_height := lift (as_int current) in
     if (current_height <=? start_height)%Z then
       logging INFO "Database is up to date"
     else sync_loop (py_range start_height (current_height + 1)))
    [(any_exception,
      fun e => logging ERROR ("Sync failed: " +:+ str_exn e))].

Definition __init__ : M unit :=
  let* h := _get_last_synced_height in
  let* _ := modify (set_last_synced_height h) in
  let* _ := logging INFO
              ("Initialized BlockchainSync with URL: " +:+ rpc_url W) in
  logging DEBUG ("Using RPC credentials - User: " +:+ rpc_user W).

End Methods.
End BlockchainSync.

(** ** create_database.py *)

Module CreateDatabase.

Inductive fsnode : Type :=
| Directory
| File (content : string).

(** The SQLite engine on a database file: running a script on the content
    of the file gives the new content and the error, if any, that stopped
    the script; [table_names] is the answer to the query on
    [sqlite_master].  The engine is taken to act on the database file
    alone: its journal files, and the files a script attaches, are not
    modelled. *)
Record Sqlite : Type := mkSqlite {
  executescript : string -> string -> string * option string;
  table_names : string -> list string }.

Record machine : Type := mkMachine {
  files : gmap string fsnode;
  stdout : list string }.

Definition print (line : string) (m : machine) : machine :=
  mkMachine (files m) (stdout m ++ [line]).

Definition set_files (f : gmap string fsnode) (m : machine) : machine :=
  mkMachine f (stdout m).

(** [os.path.exists(path)] *)
Definition exists_path (path : string) (m : machine) : bool :=
  match files m !! path with Some _ => true | None => false end.

(** [os.remove(path)], on a file system where whoever sees a file may
    remove it: the failures of permission and of the device are not
    modelled. *)
Definition os_remove (path : string) (m : machine) : result unit * machine :=
  match files m !! path with
  | Some (File _) => (Ok tt, set_files (delete path (files m)) m)
  | Some Directory =>
      (Raise (mkExn OSError ("Is a directory: '" +:+ path +:+ "'") None), m)
  | None =>
      (Raise (mkExn OSError ("No such file or directory: '" +:+ path +:+ "'")
                    None), m)
  end.

(** [with open(path, 'r') as f: f.read()] *)
Definition read_file (path : string) (m : machine) : result string :=
  match files m !! path with
  | Some (File content) => Ok content
  | Some Directory =>
      Raise (mkExn OSError ("Is a directory: '" +:+ path +:+ "'") None)
  | None =>
      Raise (mkExn OSError ("No such file or directory: '" +:+ path +:+ "'")
                   None)
  end.

(** [sqlite3.connect(path)]: opens the file, creating it empty when there is
    none. *)
Definition sqlite_connect (path : string) (m : machine)
    : result string * machine :=
  match files m !! path with
  | Some (File content) => (Ok content, m)
  | Some Directory =>
      (Raise (mkExn SqliteError "unable to open database file" None), m)
  | None => (Ok "", set_files (<[path := File ""]> (files m)) m)
  end.

Section Script.

Context (E : Sqlite).

(** The body of the [try] block. *)
Definition provision (schema_file db_name : string) (m : machine)
    : result unit * machine :=
  match read_file schema_file m with
  | Raise e => (Raise e, m)
  | Ok schema =>
      match sqlite_connect db_name m with
      | (Raise e, m1) => (Raise e, m1)
      | (Ok content, m1) =>
          let (content', failure) := executescript E schema content in
          let m2 := set_files (<[db_name := File content']> (files m1)) m1 in
          match failure with
          | Some message => (Raise (mkExn SqliteError message None), m2)
          | None =>
              let m3 := print ("Successfully created database: " +:+ db_name)
                              m2 in
              if exists_path db_name m3 then
                let m4 := print ("Database file size: "
                                   +:+ z_str (Z.of_nat (String.length content'))
                                   +:+ " bytes") m3 in
                match sqlite_connect db_name m4 with
                | (Raise e, m5) => (Raise e, m5)
                | (Ok content'', m5) =>
                    let m6 := print (String (Ascii.ascii_of_nat 10) "Created tables:")
                                    m5 in
                    (Ok tt,
                     fold_left (fun acc name => print ("- " +:+ name) acc)
                               (table_names E content'') m6)
                end
              else (Ok tt, m3)
          end
      end
  end.

Definition create_database (schema_file : string) (db_name : option string)
    (m : machine) : result unit * machine :=
  let db_name := match db_name with Some n => n | None => "bitcoin.db" end in
  let removed :=
    if exists_path db_name m then
      match os_remove db_name m with
      | (Ok tt, m') =>
          (Ok tt, print ("Removed existing database: " +:+ db_name) m')
      | (Raise e, m') => (Raise e, m')
      end
    else (Ok tt, m) in
  match removed with
  | (Raise e, m1) => (Raise e, m1)
  | (Ok tt, m1) =>
      match provision schema_file db_name m1 with
      | (Ok tt, m2) => (Ok tt, m2)
      | (Raise e, m2) =>
          if is_sqlite_error e
          then (Ok tt, print ("SQLite error: " +:+ str_exn e) m2)
          else (Ok tt, print ("Error: " +:+ str_exn e) m2)
      end
  end.

End Script.
End CreateDatabase.

(** ** Concrete runs

    A node, an engine and library functions to run the methods on: the node
    serves a three-block chain, each body is the JSON text of its reply, and
    [demo_loads] decodes exactly the bodies the node sends. *)

Definition dq : string := String (Ascii.ascii_of_nat 34) EmptyString.

(** Rendering of a value whose strings need no escaping, with the quote and
    the three constants of the notation: Python's [repr] or JSON. *)
Fixpoint render (quote null true_ false_ : string) (j : json) : string :=
  match j with
  | JNull => null
  | JBool b => if b then true_ else false_
  | JInt z => z_str z
  | JFloat f => f
  | JStr s => quote +:+ s +:+ quote
  | JList l =>
      "[" +:+ (fix items (l : list json) : string :=
                 match l with
                 | [] => ""
                 | x :: l' =>
                     render quote null true_ false_ x
                       +:+ match l' with [] => "" | _ => ", " +:+ items l' end
                 end) l +:+ "]"
  | JDict d =>
      "{" +:+ (fix members (d : list (string * json)) : string :=
                 match d with
                 | [] => ""
                 | kv :: d' =>
                     quote +:+ fst kv +:+ quote +:+ ": "
                       +:+ render quote null true_ false_ (snd kv)
                       +:+ match d' with [] => "" | _ => ", " +:+ members d' end
                 end) d +:+ "}"
  end.

Definition demo_str (j : json) : string :=
  match j with
  | JStr s => s
  | _ => render "'" "None" "True" "False" j
  end.

Definition demo_dumps (j : json) : string := render dq "null" "true" "false" j.

Definition reply (result error : json) : json :=
  JDict [("result", result); ("error", error); ("id", JStr "curltest")].

Definition demo_block (height : Z) (txs : list json) : json :=
  JDict [("hash", JStr ("hash" +:+ z_str height));
         ("height", JInt height); ("version", JInt 1);
         ("time", JInt (1231006505 + 600 * height)); ("size", JInt 285);
         ("weight", JInt 1140); ("merkleroot", JStr "4a5e1e");
         ("nonce", JInt 2083236893); ("bits", JStr "1d00ffff");
         ("difficulty", JInt 1); ("tx", JList txs)].

(** A coinbase transaction: no [fee], an input without [txid], an output
    whose script has no [addresses]. *)
Definition demo_coinbase (height : Z) : json :=
  JDict [("txid", JStr ("coinbase" +:+ z_str height)); ("version", JInt 1);
         ("size", JInt 134); ("weight", JInt 536);
         ("vin", JList [JDict [("coinbase", JStr "04ffff001d");
                               ("sequence", JInt 4294967295)]]);
         ("vout", JList [JDict [("value", JInt 50); ("n", JInt 0);
                                ("scriptPubKey",
                                 JDict [("asm", JStr "OP_CHECKSIG");
                                        ("type", JStr "pubkey")])]])].

(** The members of an object. *)
Definition members (j : json) : list (string * json) :=
  match j with JDict d => d | _ => [] end.


Definition pruned_error : json :=
  JDict [("code", JInt (-1)); ("message", JStr pruned_message)].

Definition ok_response (j : json) : http_outcome :=
  Response 200 "OK" "http://127.0.0.1:8332/" (demo_dumps j).

Definition error_response (j : json) : http_outcome :=
  Response 500 "Internal Server Error" "http://127.0.0.1:8332/" (demo_dumps j).

(** A node from its answers to the four methods. *)
Definition node_of (count info : http_outcome) (hash : Z -> http_outcome)
    (block : string -> http_outcome) (request : rpc_request) : http_outcome :=
  if String.eqb (rpc_method request) "getblockcount" then count
  else if String.eqb (rpc_method request) "getblockchaininfo" then info
  else if String.eqb (rpc_method request) "getblockhash" then
    match rpc_params request with
    | [JInt h] => hash h
    | _ => ConnectionFailed "unexpected parameters"
    end
  else match rpc_params request with
       | [JStr h; JInt 2] => block h
       | _ => ConnectionFailed "unexpected parameters"
       end.

(** The documents the demo nodes send. *)
Definition demo_documents : list json :=
  [reply (JInt 3) JNull; reply (JInt 2) JNull;
   reply (JDict [("chain", JStr "main")]) JNull;
   reply (JStr "hash1") JNull; reply (JStr "hash2") JNull;
   reply (JStr "hash3") JNull;
   reply (demo_block 1 [demo_coinbase 1]) JNull;
   reply (demo_block 2 [demo_coinbase 2]) JNull;
   reply (demo_block 3 [demo_coinbase 3]) JNull;
   reply (demo_block 0 [demo_coinbase 0]) JNull;
   reply JNull pruned_error].

Definition demo_loads (text : string) : option json :=
  find (fun j => String.eqb (demo_dumps j) text) demo_documents.

Definition accept_all_prepare (db : store) (t : table) : option string := None.
Definition accept_all (db : store) (q : stmt) : option string := None.

Definition demo_world (n : rpc_request -> http_outcome)
    (check : store -> stmt -> option string) : World :=
  mkWorld "http://127.0.0.1:8332/" "user" n accept_all_prepare check
          demo_str demo_dumps demo_loads.

Definition height_of_hash (h : string) : Z :=
  if String.eqb h "hash1" then 1 else if String.eqb h "hash2" then 2
  else if String.eqb h "hash3" then 3 else 0.

(** Chain height 3, nothing pruned, every block served. *)
Definition healthy_node : rpc_request -> http_outcome :=
  node_of (ok_response (reply (JInt 3) JNull))
          (ok_response (reply (JDict [("chain", JStr "main")]) JNull))
          (fun h => ok_response (reply (JStr ("hash" +:+ z_str h)) JNull))
          (fun h => ok_response
                      (reply (demo_block (height_of_hash h)
                                         [demo_coinbase (height_of_hash h)])
                             JNull)).

Definition initial_state : state := mkState empty_store empty_store 0 [] [] 0.

(** The node has pruned every block: it answers [getblockhash] with the
    error of a pruned block, in a reply of status 200. *)
Definition pruned_node (count : Z) : rpc_request -> http_outcome :=
  node_of (ok_response (reply (JInt count) JNull))
          (ok_response (reply (JDict [("chain", JStr "main")]) JNull))
          (fun h => ok_response (reply JNull pruned_error))
          (fun h => ok_response (reply JNull pruned_error)).

(** The node cannot be reached for [getblockhash]. *)
Definition unreachable_node : rpc_request -> http_outcome :=
  node_of (ok_response (reply (JInt 3) JNull))
          (ok_response (reply (JDict [("chain", JStr "main")]) JNull))
          (fun h => ConnectionFailed "Connection refused")
          (fun h => ConnectionFailed "Connection refused").

(** The node serves the blocks below the chain height 3 and cannot be
    reached for the last one. *)
Definition tip_unreachable_node : rpc_request -> http_outcome :=
  node_of (ok_response (reply (JInt 3) JNull))
          (ok_response (reply (JDict [("chain", JStr "main")]) JNull))
          (fun h => if (h <? 3)%Z
                    then ok_response (reply (JStr ("hash" +:+ z_str h)) JNull)
                    else ConnectionFailed "Connection refused")
          (fun h => ok_response
                      (reply (demo_block (height_of_hash h)
                                         [demo_coinbase (height_of_hash h)])
                             JNull)).

Definition healthy_world : World := demo_world healthy_node accept_all.
Definition tip_unreachable_world : World :=
  demo_world tip_unreachable_node accept_all.
Definition pruned_world : World := demo_world (pruned_node 2) accept_all.
Definition unreachable_world : World := demo_world unreachable_node accept_all.

(** The engine refuses every INSERT into [transactions], as it does for a
    row that violates a constraint of the schema. *)
Definition reject_transactions (db : store) (q : stmt) : option string :=
  match q with
  | InsertTransaction _ => Some "UNIQUE constraint failed: transactions.txid"
  | _ => None
  end.

Definition rejecting_world : World :=
  demo_world healthy_node reject_transactions.



(** The node answers [getblockhash] with the status 500 and, in the body,
    the error of a pruned block. *)
Definition error_status_node : rpc_request -> http_outcome :=
  node_of (ok_response (reply (JInt 3) JNull))
          (ok_response (reply (JDict [("chain", JStr "main")]) JNull))
          (fun h => error_response (reply JNull pruned_error))
          (fun h => error_response (reply JNull pruned_error)).

Definition error_status_world : World :=
  demo_world error_status_node accept_all.

(** An engine that appends the script to the content of the file, and a
    machine with a database file and a schema file. *)
Definition demo_sqlite : CreateDatabase.Sqlite :=
  CreateDatabase.mkSqlite (fun script content => (content +:+ script, None))
           (fun content => ["blocks"; "transactions"; "inputs"; "outputs"]).

Definition demo_machine : CreateDatabase.machine :=
  CreateDatabase.mkMachine (<["bitcoin.db" := CreateDatabase.File "rows of heights 1 to 3"]>
               (<["lastest_block.sql" := CreateDatabase.File "CREATE TABLE blocks;"]> ∅))
            [].

(** A node that has pruned the blocks below height 2 and says so, and a
    node that cannot be reached at all. *)
Definition pruning_info : json :=
  reply (JDict [("chain", JStr "main"); ("pruneheight", JInt 2)]) JNull.

Definition pruning_node : rpc_request -> http_outcome :=
  node_of (ok_response (reply (JInt 3) JNull))
          (ok_response pruning_info)
          (fun h => ok_response (reply (JStr ("hash" +:+ z_str h)) JNull))
          (fun h => ok_response
                      (reply (demo_block (height_of_hash h)
                                         [demo_coinbase (height_of_hash h)])
                             JNull)).

Definition pruning_loads (text : string) : option json :=
  find (fun j => String.eqb (demo_dumps j) text)
       (pruning_info :: demo_documents).

Definition pruning_world : World :=
  mkWorld "http://127.0.0.1:8332/" "user" pruning_node accept_all_prepare
          accept_all demo_str demo_dumps pruning_loads.

Definition offline_node (request : rpc_request) : http_outcome :=
  ConnectionFailed "Connection refused".

Definition offline_world : World := demo_world offline_node accept_all.


(** A machine where the path of the database is a directory, and one with
    a database file but no schema file. *)
Definition demo_directory_machine : CreateDatabase.machine :=
  CreateDatabase.mkMachine (<["bitcoin.db" := CreateDatabase.Directory]> ∅) [].

Definition demo_machine_without_schema : CreateDatabase.machine :=
  CreateDatabase.mkMachine
    (<["bitcoin.db" := CreateDatabase.File "rows of heights 1 to 3"]> ∅) [].

(** ** Observations on a state *)

Definition has_rowid {R : Type} (id : Z) (t : list (Z * R)) : bool :=
  existsb (fun r => Z.eqb (fst r) id) t.

(** Referential integrity of a store: the owner of every row exists. *)
Definition ref_ok (db : store) : bool :=
  forallb (fun r => has_rowid (t_block_id (snd r)) (blocks db))
          (transactions db)
  && forallb (fun r => has_rowid (i_transaction_id (snd r)) (transactions db))
             (inputs db)
  && forallb (fun r => has_rowid (o_transaction_id (snd r)) (transactions db))
             (outputs db).

(** The height a [getblockhash] request asks for. *)
Definition fetched_height (r : rpc_request) : option Z :=
  if String.eqb (rpc_method r) "getblockhash" then
    match rpc_params r with
    | [JInt h] => Some h
    | _ => None
    end
  else None.

(** The heights the node was asked for, in the order of the requests. *)
Definition heights_fetched (l : list rpc_request) : list Z :=
  omap fetched_height l.

(** The level of the latest record of the log. *)
Definition last_level (s : state) : option level := last (map lvl (log s)).

(** ** Assertions

    The vocabulary of the statements about the methods. *)

(** [hoare P m Q]: started in a state of [P], [m] ends with a result and
    in a state that [Q] relates. *)
Definition hoare {A : Type} (P : state -> Prop) (m : M A)
    (Q : result A -> state -> Prop) : Prop :=
  forall s r s', P s -> m s = (r, s') -> Q r s'.

(** [keeps I m]: [m] maintains [I], however it ends. *)
Definition keeps {A : Type} (I : state -> Prop) (m : M A) : Prop :=
  hoare I m (fun _ => I).

(** A computation that does not read the state: its result is fixed, and it
    acts on the state by a function. *)
Definition oblivious {A : Type} (m : M A) : Prop :=
  exists r f, forall s, m s = (r, f s).

(** What a call of the node leaves alone. *)
Definition same_store (s0 s : state) : Prop :=
  committed s = committed s0 /\ pending s = pending s0
  /\ lastrowid s = lastrowid s0
  /\ last_synced_height s = last_synced_height s0.

(** [params or []] *)
Definition payload_params (params : option (list json)) : list json :=
  match params with Some l => l | None => [] end.

(** What holds of the state between the INSERT of the block row, which got
    rowid [bid], and the commit: nothing is committed yet, and the pending
    rows refer to pending rows when the committed ones did. *)
Definition in_block (k : list rpc_request) (l : Z) (c0 : store) (bid : Z)
    (s : state) : Prop :=
  calls s = k /\ last_synced_height s = l /\ committed s = c0
  /\ has_rowid bid (blocks (pending s)) = true
  /\ (ref_ok c0 = true -> ref_ok (pending s) = true).

(** The same between the INSERT of a transaction row, which got rowid
    [tid], and the end of [_store_transaction]. *)
Definition in_transaction (k : list rpc_request) (l : Z) (c0 : store)
    (bid tid : Z) (s : state) : Prop :=
  in_block k l c0 bid s /\ has_rowid tid (transactions (pending s)) = true.

(** What [_store_block] does to the state it is called in: it makes no
    request and leaves the tracked height alone; unless it returns [True],
    the committed rows are those of before. *)
Definition stored_or_untouched (s0 : state) (r : result bool) (s : state)
    : Prop :=
  calls s = calls s0 /\ last_synced_height s = last_synced_height s0
  /\ (ref_ok (committed s0) = true -> ref_ok (committed s) = true)
  /\ match r with
     | Ok true => True
     | _ => committed s = committed s0
     end.

(** The requests of a pass. *)
Definition hash_request (height : Z) : rpc_request :=
  mkRequest "getblockhash" [JInt height].

(** The outcome of the body of the inner [try] at [height], started in
    [s1]. *)
Definition height_outcome (height : Z) (s1 : state) (r : result bool)
    (s : state) : Prop :=
  heights_fetched (calls s) = heights_fetched (calls s1) ++ [height]
  /\ (ref_ok (committed s1) = true -> ref_ok (committed s) = true)
  /\ match r with
     | Ok true => last_synced_height s = height
     | Ok false =>
         last_synced_height s = last_synced_height s1
         /\ committed s = committed s1 /\ last_level s = Some ERROR
     | Raise _ =>
         last_synced_height s = last_synced_height s1
         /\ committed s = committed s1
     end.

(** The state in which the inner [try] of a turn starts. *)
Definition entering (height : Z) (s : state) : state :=
  add_log (mkLog INFO ("Processing block at height " +:+ z_str height)) s.

(** The outcome of one turn started in [s0]: the height was asked for; the
    turn either advanced the tracked height to it, or left the tracked
    height and the committed rows as they were and logged an error. *)
Definition turn_outcome (height : Z) (s0 : state) (r : result bool)
    (s : state) : Prop :=
  heights_fetched (calls s) = heights_fetched (calls s0) ++ [height]
  /\ (ref_ok (committed s0) = true -> ref_ok (committed s) = true)
  /\ match r with
     | Ok true => last_synced_height s = height
     | Ok false =>
         last_synced_height s = last_synced_height s0
         /\ committed s = committed s0 /\ last_level s = Some ERROR
     | Raise _ => False
     end.

(** The outcome of the loop over [heights] started in [s0]: it made [n]
    turns, one for each of the first [n] heights, in order; either it went
    through the whole list and the tracked height is the last of the list,
    or its last turn logged an error and the tracked height is the height
    of the turn before (the tracked height of [s0] if there is none). *)
Definition loop_outcome (heights : list Z) (s0 s : state) : Prop :=
  (ref_ok (committed s0) = true -> ref_ok (committed s) = true)
  /\ exists n : nat,
       (n <= length heights)%nat
       /\ heights_fetched (calls s)
          = heights_fetched (calls s0) ++ take n heights
       /\ ((n = length heights
            /\ last_synced_height s
               = default (last_synced_height s0) (last heights))
           \/ ((0 < n)%nat
               /\ last_synced_height s
                  = default (last_synced_height s0)
                            (last (take (n - 1) heights))
               /\ last_level s = Some ERROR)).

Definition count_request : rpc_request := mkRequest "getblockcount" [].
Definition info_request : rpc_request := mkRequest "getblockchaininfo" [].

(** The outcome of a pass started in [s0], for a chain of height [c] and a
    prune height [p]. *)
Definition pass_outcome (c p : Z) (s0 s : state) : Prop :=
  let start := Z.max (last_synced_height s0 + 1) p in
  (ref_ok (committed s0) = true -> ref_ok (committed s) = true)
  /\ if (c <=? start)%Z then
       calls s = calls s0 ++ [count_request; info_request]
       /\ committed s = committed s0
       /\ last_synced_height s = last_synced_height s0
     else
       exists n : Z,
         1 <= n <= c - start + 1
         /\ heights_fetched (calls s)
            = heights_fetched (calls s0) ++ py_range start (start + n)
         /\ ((n = c - start + 1 /\ last_synced_height s = c)
             \/ (last_synced_height s < start + n - 1
                 /\ Z.max (last_synced_height s + 1) p = start + n - 1
                 /\ last_level s = Some ERROR)).


(** The committed rows have their owners. *)
Definition committed_ok (s : state) : Prop := ref_ok (committed s) = true.

(** The statuses [raise_for_status] raises on. *)
Definition http_error_status (status_code : Z) : bool :=
  ((400 <=? status_code) && (status_code <? 600))%Z.

(** [new] holds the rows of [old], with their rowids and in their order,
    and possibly more rows after them. *)
Definition extends (old new : store) : Prop :=
  blocks old `prefix_of` blocks new
  /\ transactions old `prefix_of` transactions new
  /\ inputs old `prefix_of` inputs new
  /\ outputs old `prefix_of` outputs new.

(** The committed rows extend [c0], and the pending rows the committed. *)
Definition growing (c0 : store) (s : state) : Prop :=
  extends c0 (committed s) /\ extends (committed s) (pending s).






(** The ten members [_store_block] reads with a subscript. *)
Definition required_block_fields : list string :=
  ["hash"; "height"; "version"; "time"; "size"; "weight"; "merkleroot";
   "nonce"; "bits"; "difficulty"].


(** The files [provision] leaves, from the files it finds. *)
Definition provisioned_files (E : CreateDatabase.Sqlite)
    (schema_file path : string) (f : gmap string CreateDatabase.fsnode)
    : gmap string CreateDatabase.fsnode :=
  match f !! schema_file with
  | Some (CreateDatabase.File schema) =>
      match f !! path with
      | Some CreateDatabase.Directory => f
      | Some (CreateDatabase.File content) =>
          <[path := CreateDatabase.File
                      (fst (CreateDatabase.executescript E schema content))]> f
      | None =>
          <[path := CreateDatabase.File
                      (fst (CreateDatabase.executescript E schema ""))]> f
      end
  | _ => f
  end.

(** The files [create_database] leaves, from the files it finds. *)
Definition created_files (E : CreateDatabase.Sqlite)
    (schema_file path : string) (f : gmap string CreateDatabase.fsnode)
    : gmap string CreateDatabase.fsnode :=
  match f !! path with
  | Some CreateDatabase.Directory => f
  | _ => provisioned_files E schema_file path (delete path f)
  end.


(** The passes one object makes one after the other, as the scheduler of
    [main] has it make them, each with the node and the database of its
    time. *)
Fixpoint run_passes (worlds : list World) (s : state) : state :=
  match worlds with
  | [] => s
  | W :: later =>
      run_passes later (snd (BlockchainSync.sync_latest_blocks W s))
  end.

Section Vocabulary.

Context (W : World).

(** One turn of the loop: the log record, the inner [try] and its handler;
    the result is whether the loop goes on. *)
Definition iteration (height : Z) : M bool :=
  let* _ := logging INFO ("Processing block at height " +:+ z_str height) in
  try_except (BlockchainSync.process_height W height)
             [(any_exception, BlockchainSync.on_height_error height)].

(** The engine serves the query of the height tracker. *)
Definition tracker_served (db : store) : bool :=
  match db_check W db Connect, db_prepare W db Blocks,
        db_check W db SelectMaxHeight with
  | None, None, None => true
  | _, _, _ => false
  end.

End Vocabulary.

(** * Reasoning about the monad *)

Section Hoare.

Lemma hoare_conseq {A : Type} (P P' : state -> Prop) (m : M A)
    (Q Q' : result A -> state -> Prop) :
  hoare P' m Q' -> (forall s, P s -> P' s) ->
  (forall r s, Q' r s -> Q r s) -> hoare P m Q.
Proof. intros H HP HQ s r s' Hs E. eapply HQ, H; eauto. Qed.

Lemma hoare_ret {A : Type} (P : state -> Prop) (a : A)
    (Q : result A -> state -> Prop) :
  (forall s, P s -> Q (Ok a) s) -> hoare P (ret a) Q.
Proof. intros H s r s' Hs E. inversion E; subst. auto. Qed.

Lemma hoare_raise {A : Type} (P : state -> Prop) (e : exn)
    (Q : result A -> state -> Prop) :
  (forall s, P s -> Q (Raise e) s) -> hoare P (raise e) Q.
Proof. intros H s r s' Hs E. inversion E; subst. auto. Qed.

Lemma hoare_lift {A : Type} (P : state -> Prop) (x : result A)
    (Q : result A -> state -> Prop) :
  (forall s, P s -> Q x s) -> hoare P (lift x) Q.
Proof. intros H s r s' Hs E. inversion E; subst. auto. Qed.

Lemma hoare_modify (P : state -> Prop) (f : state -> state)
    (Q : result unit -> state -> Prop) :
  (forall s, P s -> Q (Ok tt) (f s)) -> hoare P (modify f) Q.
Proof. intros H s r s' Hs E. inversion E; subst. auto. Qed.

Lemma hoare_logging (P : state -> Prop) (l : level) (t : string)
    (Q : result unit -> state -> Prop) :
  (forall s, P s -> Q (Ok tt) (add_log (mkLog l t) s)) ->
  hoare P (logging l t) Q.
Proof. intros H. apply hoare_modify, H. Qed.

Lemma hoare_get_state (P : state -> Prop)
    (Q : result state -> state -> Prop) :
  (forall s, P s -> Q (Ok s) s) -> hoare P get_state Q.
Proof. intros H s r s' Hs E. inversion E; subst. auto. Qed.

Lemma hoare_bind {A B : Type} (P : state -> Prop) (m : M A) (k : A -> M B)
    (R : result A -> state -> Prop) (Q : result B -> state -> Prop) :
  hoare P m R ->
  (forall a, hoare (R (Ok a)) (k a) Q) ->
  (forall e s, R (Raise e) s -> Q (Raise e) s) ->
  hoare P (bind m k) Q.
Proof.
  intros Hm Hk He s r s' Hs E. unfold bind in E.
  destruct (m s) as [[a | e] s1] eqn:Em.
  - eapply Hk; [eapply Hm; eauto | exact E].
  - inversion E; subst. eapply He, Hm; eauto.
Qed.

Lemma hoare_dispatch_nil {A : Type} (P : state -> Prop) (e : exn)
    (Q : result A -> state -> Prop) :
  (forall s, P s -> Q (Raise e) s) -> hoare P (dispatch [] e) Q.
Proof. apply hoare_raise. Qed.

Lemma hoare_dispatch_cons {A : Type} (P : state -> Prop) (e : exn)
    (c : exn -> bool) (h : exn -> M A) cl (Q : result A -> state -> Prop) :
  (c e = true -> hoare P (h e) Q) ->
  (c e = false -> hoare P (dispatch cl e) Q) ->
  hoare P (dispatch ((c, h) :: cl) e) Q.
Proof. intros H1 H2. simpl. destruct (c e); auto. Qed.

Lemma hoare_try_except {A : Type} (P : state -> Prop) (body : M A) cl
    (R Q : result A -> state -> Prop) :
  hoare P body R ->
  (forall a s, R (Ok a) s -> Q (Ok a) s) ->
  (forall e, hoare (R (Raise e)) (dispatch cl e) Q) ->
  hoare P (try_except body cl) Q.
Proof.
  intros Hb Hok Hh s r s' Hs E. unfold try_except in E.
  destruct (body s) as [[a | e] s1] eqn:Eb.
  - inversion E; subst. eapply Hok, Hb; eauto.
  - eapply Hh; [eapply Hb; eauto | exact E].
Qed.

(** A loop keeps what its body keeps. *)
Lemma hoare_for_each {A : Type} (I : state -> Prop) (body : A -> M unit)
    (l : list A) :
  (forall x, hoare I (body x) (fun _ => I)) ->
  hoare I (for_each body l) (fun _ => I).
Proof.
  intros Hb. induction l as [| x l IH]; simpl.
  - apply hoare_ret. auto.
  - eapply hoare_bind; [apply Hb | intros ?; apply IH | auto].
Qed.

(** Steps that cannot raise. *)
Lemma hoare_seq_modify {B : Type} (P P' : state -> Prop) (f : state -> state)
    (k : unit -> M B) (Q : result B -> state -> Prop) :
  (forall s, P s -> P' (f s)) -> hoare P' (k tt) Q ->
  hoare P (bind (modify f) k) Q.
Proof.
  intros Hf Hk s r s' Hs E. unfold bind, modify in E.
  eapply Hk; [apply Hf, Hs | exact E].
Qed.

Lemma hoare_seq_logging {B : Type} (P P' : state -> Prop) (l : level)
    (t : string) (k : unit -> M B) (Q : result B -> state -> Prop) :
  (forall s, P s -> P' (add_log (mkLog l t) s)) -> hoare P' (k tt) Q ->
  hoare P (bind (logging l t) k) Q.
Proof. apply hoare_seq_modify. Qed.

Lemma hoare_skip_logging {B : Type} (P : state -> Prop) (l : level)
    (t : string) (k : unit -> M B) (Q : result B -> state -> Prop) :
  (forall s, P s -> P (add_log (mkLog l t) s)) -> hoare P (k tt) Q ->
  hoare P (bind (logging l t) k) Q.
Proof. apply hoare_seq_logging. Qed.


Lemma hoare_seq_get_state {B : Type} (P : state -> Prop)
    (k : state -> M B) (Q : result B -> state -> Prop) :
  (forall s0, hoare (fun s => P s /\ s = s0) (k s0) Q) ->
  hoare P (bind get_state k) Q.
Proof.
  intros Hk s r s' Hs E. unfold bind, get_state in E.
  eapply Hk; [split; [exact Hs | reflexivity] | exact E].
Qed.

Lemma hoare_bind_lift_ok {A B : Type} (P : state -> Prop) (a : A)
    (k : A -> M B) (Q : result B -> state -> Prop) :
  hoare P (k a) Q -> hoare P (bind (lift (Ok a)) k) Q.
Proof. intros H s r s' Hs E. exact (H s r s' Hs E). Qed.

Lemma hoare_bind_lift_raise {A B : Type} (P : state -> Prop) (e : exn)
    (k : A -> M B) (Q : result B -> state -> Prop) :
  (forall s, P s -> Q (Raise e) s) -> hoare P (bind (lift (Raise e)) k) Q.
Proof. intros H s r s' Hs E. inversion E; subst. auto. Qed.


Lemma hoare_pointwise {A : Type} (P : state -> Prop) (m : M A)
    (Q : result A -> state -> Prop) :
  (forall s0, P s0 -> hoare (eq s0) m Q) -> hoare P m Q.
Proof. intros H s r s' Hs E. exact (H s Hs s r s' eq_refl E). Qed.


Lemma keeps_intro {A : Type} (I : state -> Prop) (m : M A) :
  keeps I m -> hoare I m (fun _ => I).
Proof. exact (fun H => H). Qed.

Lemma keeps_ret {A : Type} (I : state -> Prop) (a : A) : keeps I (ret a).
Proof. apply hoare_ret. auto. Qed.

Lemma keeps_raise {A : Type} (I : state -> Prop) (e : exn) :
  keeps I (@raise A e).
Proof. apply hoare_raise. auto. Qed.

Lemma keeps_lift {A : Type} (I : state -> Prop) (x : result A) :
  keeps I (lift x).
Proof. apply hoare_lift. auto. Qed.

Lemma keeps_get_state (I : state -> Prop) : keeps I get_state.
Proof. apply hoare_get_state. auto. Qed.

Lemma keeps_modify (I : state -> Prop) (f : state -> state) :
  (forall s, I s -> I (f s)) -> keeps I (modify f).
Proof. intros H. unfold keeps. apply hoare_modify. exact H. Qed.

Lemma keeps_logging (I : state -> Prop) (l : level) (t : string) :
  (forall s, I s -> I (add_log (mkLog l t) s)) -> keeps I (logging l t).
Proof. intros H. unfold keeps. apply hoare_logging. exact H. Qed.

Lemma keeps_bind {A B : Type} (I : state -> Prop) (m : M A) (k : A -> M B) :
  keeps I m -> (forall a, keeps I (k a)) -> keeps I (bind m k).
Proof. intros Hm Hk. eapply hoare_bind; [exact Hm | exact Hk | auto]. Qed.

Lemma keeps_dispatch {A : Type} (I : state -> Prop)
    (cl : list ((exn -> bool) * (exn -> M A))) (e : exn) :
  Forall (fun c => keeps I (snd c e)) cl -> keeps I (dispatch cl e).
Proof.
  induction 1 as [| [c h] cl Hh _ IH]; simpl.
  - apply keeps_raise.
  - destruct (c e); [exact Hh | exact IH].
Qed.

Lemma keeps_try_except {A : Type} (I : state -> Prop) (body : M A) cl :
  keeps I body -> (forall e, Forall (fun c => keeps I (snd c e)) cl) ->
  keeps I (try_except body cl).
Proof.
  intros Hb Hh. eapply hoare_try_except; [exact Hb | auto |].
  intros e. apply keeps_dispatch, Hh.
Qed.

Lemma keeps_for_each {A : Type} (I : state -> Prop) (body : A -> M unit)
    (l : list A) :
  (forall x, keeps I (body x)) -> keeps I (for_each body l).
Proof. intros H. unfold keeps. apply hoare_for_each. exact H. Qed.

Lemma oblivious_ret {A : Type} (a : A) : oblivious (ret a).
Proof. exists (Ok a), (fun s => s). reflexivity. Qed.

Lemma oblivious_raise {A : Type} (e : exn) : oblivious (@raise A e).
Proof. exists (Raise e), (fun s => s). reflexivity. Qed.

Lemma oblivious_lift {A : Type} (x : result A) : oblivious (lift x).
Proof. exists x, (fun s => s). reflexivity. Qed.

Lemma oblivious_modify (f : state -> state) : oblivious (modify f).
Proof. exists (Ok tt), f. reflexivity. Qed.

Lemma oblivious_logging (l : level) (t : string) : oblivious (logging l t).
Proof. apply oblivious_modify. Qed.

Lemma oblivious_bind {A B : Type} (m : M A) (k : A -> M B) :
  oblivious m -> (forall a, oblivious (k a)) -> oblivious (bind m k).
Proof.
  intros (r & f & Hm) Hk. destruct r as [a | e].
  - destruct (Hk a) as (r' & g & Hka).
    exists r', (fun s => g (f s)). intros s. unfold bind.
    rewrite Hm. apply Hka.
  - exists (Raise e), f. intros s. unfold bind. rewrite Hm. reflexivity.
Qed.

Lemma oblivious_dispatch {A : Type}
    (cl : list ((exn -> bool) * (exn -> M A))) (e : exn) :
  Forall (fun c => oblivious (snd c e)) cl -> oblivious (dispatch cl e).
Proof.
  induction 1 as [| [c h] cl Hh _ IH]; simpl.
  - apply oblivious_raise.
  - destruct (c e); [exact Hh | exact IH].
Qed.

Lemma oblivious_try_except {A : Type} (body : M A) cl :
  oblivious body -> (forall e, Forall (fun c => oblivious (snd c e)) cl) ->
  oblivious (try_except body cl).
Proof.
  intros (r & f & Hb) Hh. destruct r as [a | e].
  - exists (Ok a), f. intros s. unfold try_except. rewrite Hb. reflexivity.
  - destruct (oblivious_dispatch cl e (Hh e)) as (r' & g & Hd).
    exists r', (fun s => g (f s)). intros s. unfold try_except.
    rewrite Hb. apply Hd.
Qed.

Lemma oblivious_result {A : Type} (m : M A) (s s' : state) :
  oblivious m -> fst (m s) = fst (m s').
Proof. intros (r & f & H). rewrite !H. reflexivity. Qed.


End Hoare.

(** One step of a proof that a computation keeps an invariant. *)
Ltac keeps_step :=
  lazymatch goal with
  | |- keeps _ (bind _ _) => apply keeps_bind; [| intros ?]
  | |- keeps _ (ret _) => apply keeps_ret
  | |- keeps _ (raise _) => apply keeps_raise
  | |- keeps _ (lift _) => apply keeps_lift
  | |- keeps _ get_state => apply keeps_get_state
  | |- keeps _ (modify _) => apply keeps_modify
  | |- keeps _ (logging _ _) => apply keeps_logging
  | |- keeps _ (try_except _ _) =>
      apply keeps_try_except;
      [| intros ?; repeat first [apply Forall_nil_2 | apply Forall_cons_2];
         simpl]
  | |- keeps _ (for_each _ _) => apply keeps_for_each; intros ?
  | |- keeps _ (match ?x with _ => _ end) => destruct x
  | |- keeps _ (let _ := _ in _) => cbv zeta
  end.

Ltac oblivious_step :=
  lazymatch goal with
  | |- oblivious (bind _ _) => apply oblivious_bind; [| intros ?]
  | |- oblivious (ret _) => apply oblivious_ret
  | |- oblivious (raise _) => apply oblivious_raise
  | |- oblivious (lift _) => apply oblivious_lift
  | |- oblivious (modify _) => apply oblivious_modify
  | |- oblivious (logging _ _) => apply oblivious_logging
  | |- oblivious (try_except _ _) =>
      apply oblivious_try_except;
      [| intros ?; repeat first [apply Forall_nil_2 | apply Forall_cons_2];
         simpl]
  | |- oblivious (match ?x with _ => _ end) => destruct x
  | |- oblivious (let _ := _ in _) => cbv zeta
  end.


(** ** Rows and their owners *)

Lemma has_rowid_app {R : Type} (id : Z) (t t' : list (Z * R)) :
  has_rowid id t = true -> has_rowid id (t ++ t') = true.
Proof.
  unfold has_rowid. rewrite existsb_app. intros ->. reflexivity.
Qed.

Lemma has_rowid_new {R : Type} (id : Z) (r : R) (t : list (Z * R)) :
  has_rowid id (t ++ [(id, r)]) = true.
Proof.
  unfold has_rowid. rewrite existsb_app. simpl. rewrite Z.eqb_refl.
  apply orb_true_iff. right. reflexivity.
Qed.

Lemma forallb_owner_app {R S : Type} (owner : Z * R -> Z)
    (rows : list (Z * R)) (t t' : list (Z * S)) :
  forallb (fun r => has_rowid (owner r) t) rows = true ->
  forallb (fun r => has_rowid (owner r) (t ++ t')) rows = true.
Proof.
  rewrite !forallb_forall. intros H r Hr. apply has_rowid_app, H, Hr.
Qed.

Lemma ref_ok_insert_block (p : store) (x : Z * block_row) :
  ref_ok p = true ->
  ref_ok (mkStore (blocks p ++ [x]) (transactions p) (inputs p) (outputs p))
  = true.
Proof.
  unfold ref_ok. simpl. rewrite !andb_true_iff. intros [[Ht Hi] Ho].
  repeat split; auto. apply forallb_owner_app, Ht.
Qed.

Lemma ref_ok_insert_transaction (p : store) (id : Z) (r : tx_row) :
  ref_ok p = true -> has_rowid (t_block_id r) (blocks p) = true ->
  ref_ok (mkStore (blocks p) (transactions p ++ [(id, r)]) (inputs p)
                  (outputs p)) = true.
Proof.
  unfold ref_ok. simpl. rewrite !andb_true_iff. intros [[Ht Hi] Ho] Hb.
  repeat split.
  - rewrite forallb_app. simpl. rewrite Ht, Hb. reflexivity.
  - apply (forallb_owner_app (fun r => i_transaction_id (snd r))), Hi.
  - apply (forallb_owner_app (fun r => o_transaction_id (snd r))), Ho.
Qed.

Lemma ref_ok_insert_input (p : store) (id : Z) (r : input_row) :
  ref_ok p = true -> has_rowid (i_transaction_id r) (transactions p) = true ->
  ref_ok (mkStore (blocks p) (transactions p) (inputs p ++ [(id, r)])
                  (outputs p)) = true.
Proof.
  unfold ref_ok. simpl. rewrite !andb_true_iff. intros [[Ht Hi] Ho] Hb.
  repeat split; auto.
  rewrite forallb_app. simpl. rewrite Hi, Hb. reflexivity.
Qed.

Lemma ref_ok_insert_output (p : store) (id : Z) (r : output_row) :
  ref_ok p = true -> has_rowid (o_transaction_id r) (transactions p) = true ->
  ref_ok (mkStore (blocks p) (transactions p) (inputs p) 
                  (outputs p ++ [(id, r)])) = true.
Proof.
  unfold ref_ok. simpl. rewrite !andb_true_iff. intros [[Ht Hi] Ho] Hb.
  repeat split; auto.
  rewrite forallb_app. simpl. rewrite Ho, Hb. reflexivity.
Qed.


(** ** [range] *)

Lemma py_range_length (a b : Z) : length (py_range a b) = Z.to_nat (b - a).
Proof. unfold py_range. rewrite length_map, length_seq. reflexivity. Qed.

Lemma py_range_take (n : nat) (a b : Z) :
  (n <= Z.to_nat (b - a))%nat ->
  take n (py_range a b) = py_range a (a + Z.of_nat n).
Proof.
  intros H. unfold py_range.
  replace (Z.to_nat (a + Z.of_nat n - a)) with n by lia.
  rewrite <- fmap_take, take_seq.
  replace (n `min` Z.to_nat (b - a))%nat with n by lia. reflexivity.
Qed.

Lemma py_range_last (a b : Z) :
  a < b -> last (py_range a b) = Some (b - 1).
Proof.
  intros H. unfold py_range.
  replace (Z.to_nat (b - a)) with (S (Z.to_nat (b - a - 1))) by lia.
  rewrite seq_S, map_app. simpl. rewrite last_snoc. f_equal. lia.
Qed.

Lemma py_range_empty (a : Z) : py_range a a = [].
Proof. unfold py_range. rewrite Z.sub_diag. reflexivity. Qed.

Lemma py_range_cons (a b : Z) :
  a < b -> py_range a b = a :: py_range (a + 1) b.
Proof.
  intros H. unfold py_range.
  replace (Z.to_nat (b - a)) with (S (Z.to_nat (b - (a + 1)))) by lia.
  simpl. f_equal; [lia |].
  rewrite <- seq_shift, map_map. apply map_ext. intros i. lia.
Qed.


Lemma py_range_NoDup (a b : Z) : NoDup (py_range a b).
Proof.
  unfold py_range. apply NoDup_fmap_2; [| apply NoDup_seq].
  intros i j H. lia.
Qed.


(** The heights of a range go up one by one. *)
Lemma py_range_lookup (a b : Z) (i : nat) (h : Z) :
  py_range a b !! i = Some h -> h = a + Z.of_nat i /\ a <= h < b.
Proof.
  unfold py_range. rewrite list_lookup_fmap. intros H.
  destruct (seq 0 (Z.to_nat (b - a)) !! i) as [j |] eqn:E; [| discriminate].
  apply lookup_seq in E. destruct E as [-> Hi]. simpl in H.
  inversion H; subst. lia.
Qed.

(** A range has a height at each of its positions. *)
Lemma py_range_lookup_lt (a b : Z) (i : nat) :
  (i < Z.to_nat (b - a))%nat -> py_range a b !! i = Some (a + Z.of_nat i).
Proof.
  intros H. unfold py_range. rewrite list_lookup_fmap.
  rewrite (lookup_seq_lt 0 (Z.to_nat (b - a)) i H). reflexivity.
Qed.


(** * Properties of the methods *)

Section MethodFacts.

Context (W : World).

Import BlockchainSync.

Lemma make_rpc_call_keeps (I : state -> Prop) method params :
  (forall s r, I s -> I (add_log r s)) ->
  (forall s, I s -> I (add_call (mkRequest method (payload_params params)) s)) ->
  keeps I (_make_rpc_call W method params).
Proof.
  intros Hlog Hcall. unfold _make_rpc_call, raise_for_status.
  repeat (keeps_step; auto).
Qed.

(** The state is extended by the request, and by nothing else than log
    records. *)
Lemma make_rpc_call_calls method params (c : list rpc_request) :
  hoare (fun s => calls s = c) (_make_rpc_call W method params)
        (fun _ s => calls s = c ++ [mkRequest method (payload_params params)]).
Proof.
  unfold _make_rpc_call.
  do 3 (eapply hoare_seq_logging with (P' := fun s => calls s = c); [auto |]).
  eapply hoare_try_except
    with (R := fun _ s => calls s
                          = c ++ [mkRequest method (payload_params params)]).
  - cbv zeta.
    eapply hoare_seq_modify
      with (P' := fun s => calls s
                           = c ++ [mkRequest method (payload_params params)]).
    + intros s Hs. subst c. reflexivity.
    + apply keeps_intro.
      unfold raise_for_status. repeat (keeps_step; auto).
  - auto.
  - intros e. apply keeps_dispatch.
    repeat first [apply Forall_nil_2 | apply Forall_cons_2]; simpl;
      repeat (keeps_step; auto).
Qed.


Lemma make_rpc_call_frame method params (s0 : state) :
  hoare (eq s0) (_make_rpc_call W method params)
        (fun _ s => same_store s0 s
                    /\ calls s
                       = calls s0 ++ [mkRequest method (payload_params params)]).
Proof.
  intros s r s' <- E. split.
  - refine (make_rpc_call_keeps (same_store s0) method params _ _ s0 r s' _ E);
      unfold same_store; simpl; tauto.
  - exact (make_rpc_call_calls method params (calls s0) s0 r s' eq_refl E).
Qed.


(** The answer of the node does not depend on the state of the program. *)
Lemma make_rpc_call_oblivious method params :
  oblivious (_make_rpc_call W method params).
Proof.
  unfold _make_rpc_call, raise_for_status. repeat oblivious_step.
Qed.

Lemma get_prune_height_oblivious : oblivious (_get_prune_height W).
Proof.
  unfold _get_prune_height.
  repeat first [apply make_rpc_call_oblivious | oblivious_step].
Qed.

Lemma get_prune_height_keeps (I : state -> Prop) :
  (forall s r, I s -> I (add_log r s)) ->
  (forall s, I s -> I (add_call (mkRequest "getblockchaininfo" []) s)) ->
  keeps I (_get_prune_height W).
Proof.
  intros Hlog Hcall. unfold _get_prune_height.
  repeat first [apply (make_rpc_call_keeps I "getblockchaininfo" None Hlog Hcall)
               | keeps_step; auto].
Qed.

(** [_get_prune_height] swallows every failure. *)
Lemma get_prune_height_returns (s : state) :
  exists j, fst (_get_prune_height W s) = Ok j.
Proof.
  unfold _get_prune_height, try_except.
  destruct (bind _ _ s) as [[j | e] s1].
  - exists j. reflexivity.
  - exists (JInt 0). reflexivity.
Qed.


(** ** The statements *)

Lemma hoare_execute_insert (P : state -> Prop) t params q effect
    (Q : result unit -> state -> Prop) :
  (forall e s, P s -> Q (Raise e) s) ->
  (forall vs s, P s -> Q (Ok tt) (effect vs s)) ->
  hoare P (execute_insert W t params q effect) Q.
Proof.
  intros He Hok s r s' Hs E.
  unfold execute_insert, bind, prepare, lift, run in E.
  destruct (db_prepare W (pending s) t); [inversion E; subst; auto |].
  destruct (bind_params params) as [vs | e]; [| inversion E; subst; auto].
  destruct (db_check W (pending s) (q vs)); inversion E; subst; auto.
Qed.

Lemma hoare_commit (P : state -> Prop) (Q : result unit -> state -> Prop) :
  (forall e s, P s -> Q (Raise e) s) ->
  (forall s, P s -> Q (Ok tt) (set_committed (pending s) s)) ->
  hoare P (commit W) Q.
Proof.
  intros He Hok s r s' Hs E. unfold commit, run in E.
  destruct (db_check W (pending s) Commit); inversion E; subst; auto.
Qed.

Lemma hoare_with_connection {A : Type} (P P' : state -> Prop) (body : M A)
    (R Q : result A -> state -> Prop) :
  (forall e s, P s -> Q (Raise e) s) ->
  (forall s, P s -> P' (set_pending (committed s) s)) ->
  hoare P' body R ->
  (forall a s, R (Ok a) s -> Q (Ok a) (set_committed (pending s) s)) ->
  (forall e s, R (Raise e) s -> Q (Raise e) (set_pending (committed s) s)) ->
  hoare P (with_connection W body) Q.
Proof.
  intros Hfail Hconn Hbody Hok Hraise s r s' Hs E.
  unfold with_connection, bind, connect in E.
  destruct (db_check W (committed s) Connect).
  - inversion E; subst. auto.
  - destruct (body _) as [[a | e] s1] eqn:Eb; inversion E; subst.
    + eapply Hok, Hbody; eauto.
    + eapply Hraise, Hbody; eauto.
Qed.


Lemma keeps_execute_insert (I : state -> Prop) t params q effect :
  (forall vs s, I s -> I (effect vs s)) ->
  keeps I (execute_insert W t params q effect).
Proof. intros H. apply hoare_execute_insert; auto. Qed.

(** ** Inside the transaction of one block *)

Lemma in_block_log k l c0 bid s r :
  in_block k l c0 bid s -> in_block k l c0 bid (add_log r s).
Proof. exact (fun H => H). Qed.

Lemma in_transaction_log k l c0 bid tid s r :
  in_transaction k l c0 bid tid s -> in_transaction k l c0 bid tid (add_log r s).
Proof. exact (fun H => H). Qed.

Lemma in_block_insert_transaction k l c0 bid vs s :
  in_block k l c0 bid s ->
  let s' := insert_transaction (tx_row_of bid vs) s in
  in_transaction k l c0 bid (lastrowid s') s'.
Proof.
  intros (Hk & Hl & Hc & Hb & Hr). simpl. repeat split; auto.
  - intros H. apply ref_ok_insert_transaction; auto.
  - apply has_rowid_new.
Qed.

Lemma in_transaction_insert_input k l c0 bid tid vs s :
  in_transaction k l c0 bid tid s ->
  in_transaction k l c0 bid tid (insert_input (input_row_of tid vs) s).
Proof.
  intros [(Hk & Hl & Hc & Hb & Hr) Ht]. simpl. repeat split; auto.
  intros H. apply ref_ok_insert_input; auto.
Qed.

Lemma in_transaction_insert_output k l c0 bid tid vs s :
  in_transaction k l c0 bid tid s ->
  in_transaction k l c0 bid tid (insert_output (output_row_of tid vs) s).
Proof.
  intros [(Hk & Hl & Hc & Hb & Hr) Ht]. simpl. repeat split; auto.
  intros H. apply ref_ok_insert_output; auto.
Qed.

Lemma store_transaction_keeps k l c0 bid tx_data :
  keeps (in_block k l c0 bid) (_store_transaction W tx_data bid).
Proof.
  unfold _store_transaction. apply keeps_try_except.
  - apply keeps_bind; [apply keeps_lift | intros params].
    eapply hoare_bind
      with (R := fun r s =>
                   match r with
                   | Ok _ => in_transaction k l c0 bid (lastrowid s) s
                   | Raise _ => in_block k l c0 bid s
                   end).
    + apply hoare_execute_insert; [auto |].
      intros vs s Hs. apply in_block_insert_transaction, Hs.
    + intros _. apply hoare_seq_get_state. intros s0. cbv zeta.
      eapply hoare_conseq
        with (P' := in_transaction k l c0 bid (lastrowid s0))
             (Q' := fun _ => in_transaction k l c0 bid (lastrowid s0)).
      * apply keeps_intro.
        repeat first [ apply keeps_execute_insert; intros vs s Hs;
                       first [apply in_transaction_insert_input, Hs
                             | apply in_transaction_insert_output, Hs]
                     | keeps_step ].
      * intros s [Hs ->]. exact Hs.
      * intros r s [Hs _]. exact Hs.
    + auto.
  - intros e. repeat first [apply Forall_nil_2 | apply Forall_cons_2]. simpl.
    repeat (keeps_step; auto).
Qed.


Lemma block_params_subscripts block_data params :
  block_params block_data = Ok params ->
  exists hash height,
    subscript block_data "hash" = Ok hash
    /\ subscript block_data "height" = Ok height.
Proof.
  unfold block_params. intros H.
  destruct (subscript block_data "hash") as [hash |]; [| discriminate].
  destruct (subscript block_data "height") as [height |]; [| discriminate].
  eauto.
Qed.

Lemma in_block_insert_block k l c0 vs s :
  calls s = k -> last_synced_height s = l -> committed s = c0 ->
  pending s = c0 ->
  let s' := insert_block (block_row_of vs) s in
  in_block k l c0 (lastrowid s') s'.
Proof.
  intros Hk Hl Hc Hp. simpl. repeat split; auto.
  - apply has_rowid_new.
  - intros H. apply ref_ok_insert_block. rewrite Hp. exact H.
Qed.

Lemma store_block_spec block_data (s0 : state) :
  hoare (eq s0) (_store_block W block_data) (stored_or_untouched s0).
Proof.
  set (k := calls s0). set (l := last_synced_height s0).
  set (c0 := committed s0).
  unfold _store_block.
  eapply hoare_try_except
    with (R := fun r s =>
                 calls s = k /\ last_synced_height s = l
                 /\ (ref_ok c0 = true -> ref_ok (committed s) = true)
                 /\ match r with
                    | Ok b => b = true
                    | Raise _ => committed s = c0
                    end).
  - eapply hoare_with_connection
      with (P' := fun s => calls s = k /\ last_synced_height s = l
                           /\ committed s = c0 /\ pending s = c0)
           (R := fun r s =>
                   calls s = k /\ last_synced_height s = l
                   /\ match r with
                      | Ok b => b = true
                                /\ (ref_ok c0 = true -> ref_ok (pending s) = true)
                      | Raise _ => committed s = c0
                      end).
    + intros e s <-. repeat split; auto.
    + intros s <-. repeat split; auto.
    + destruct (block_params block_data) as [params | e] eqn:Hp.
      2: { apply hoare_bind_lift_raise. intros s (? & ? & ? & ?). auto. }
      destruct (block_params_subscripts _ _ Hp) as (hash & height & Hh & Hg).
      apply hoare_bind_lift_ok.
      eapply hoare_bind
        with (R := fun r s =>
                     match r with
                     | Ok _ => in_block k l c0 (lastrowid s) s
                     | Raise _ => calls s = k /\ last_synced_height s = l
                                  /\ committed s = c0
                     end).
      * apply hoare_execute_insert.
        -- intros e s (? & ? & ? & ?). auto.
        -- intros vs s (? & ? & ? & ?). apply in_block_insert_block; auto.
      * intros _. apply hoare_seq_get_state. intros s1. cbv zeta.
        eapply hoare_conseq with (P' := in_block k l c0 (lastrowid s1));
          [| intros s [Hs ->]; exact Hs | intros r s H; exact H].
        eapply hoare_bind with (R := fun _ => in_block k l c0 (lastrowid s1));
          [apply keeps_lift | intros txs | intros e s (? & ? & ? & ?); auto].
        eapply hoare_bind with (R := fun _ => in_block k l c0 (lastrowid s1));
          [apply keeps_lift | intros items | intros e s (? & ? & ? & ?); auto].
        eapply hoare_bind with (R := fun _ => in_block k l c0 (lastrowid s1));
          [| intros _ | intros e s (? & ? & ? & ?); auto].
        { apply keeps_for_each. intros tx. apply keeps_bind.
          - apply store_transaction_keeps.
          - intros b. apply keeps_ret. }
        eapply hoare_bind
          with (R := fun r s =>
                       calls s = k /\ last_synced_height s = l
                       /\ match r with
                          | Ok _ => ref_ok c0 = true -> ref_ok (pending s) = true
                          | Raise _ => committed s = c0
                          end);
          [| intros _ | auto].
        { apply hoare_commit.
          - intros e s (? & ? & ? & ?). auto.
          - intros s (? & ? & ? & ? & ?). auto. }
        rewrite Hh, Hg. do 2 apply hoare_bind_lift_ok.
        eapply hoare_seq_logging
          with (P' := fun s => calls s = k /\ last_synced_height s = l
                               /\ (ref_ok c0 = true
                                   -> ref_ok (pending s) = true));
          [intros s H; exact H |].
        apply hoare_ret. intros s (? & ? & ?). auto.
      * intros e s H. exact H.
    + intros a s (? & ? & ? & ?). simpl. auto.
    + intros e s (? & ? & Hc). simpl. repeat split; auto.
      intros Hr. rewrite Hc. exact Hr.
  - intros a s (? & ? & ? & ->). repeat split; auto.
  - intros e. apply hoare_dispatch_cons.
    + intros _.
      eapply hoare_seq_logging
        with (P' := fun s => calls s = k /\ last_synced_height s = l
                             /\ (ref_ok c0 = true
                                 -> ref_ok (committed s) = true)
                             /\ committed s = c0);
        [intros s H; exact H |].
      apply hoare_ret. intros s (? & ? & ? & ?). repeat split; auto.
    + intros _. apply hoare_dispatch_nil.
      intros s (? & ? & ? & ?). repeat split; auto.
Qed.


(** ** One height *)

Lemma heights_fetched_app (l l' : list rpc_request) :
  heights_fetched (l ++ l') = heights_fetched l ++ heights_fetched l'.
Proof. apply omap_app. Qed.

Lemma last_level_error (t : string) (s : state) :
  last_level (add_log (mkLog ERROR t) s) = Some ERROR.
Proof.
  unfold last_level. simpl. rewrite map_app. simpl. apply last_snoc.
Qed.

Lemma process_height_spec height (s1 : state) :
  hoare (eq s1) (process_height W height) (height_outcome height s1).
Proof.
  unfold process_height.
  eapply hoare_bind
    with (R := fun _ s => same_store s1 s
                          /\ calls s = calls s1 ++ [hash_request height]).
  { apply make_rpc_call_frame. }
  2: { intros e s [(Hc & _ & _ & Hl) Hk]. unfold height_outcome.
       rewrite Hk, heights_fetched_app.
       repeat split; try reflexivity; intros; congruence. }
  intros block_hash.
  eapply hoare_seq_logging
    with (P' := fun s => same_store s1 s
                         /\ calls s = calls s1 ++ [hash_request height]);
    [intros s H; exact H |].
  eapply hoare_bind
    with (R := fun _ s =>
                 same_store s1 s
                 /\ calls s = (calls s1 ++ [hash_request height])
                                ++ [mkRequest "getblock" [block_hash; JInt 2]]).
  { apply hoare_pointwise. intros s2 [Hs Hk].
    eapply hoare_conseq;
      [apply (make_rpc_call_frame "getblock" (Some [block_hash; JInt 2]) s2)
      | auto |].
    intros r s [(H1 & H2 & H3 & H4) H5]. destruct Hs as (G1 & G2 & G3 & G4).
    split; [repeat split; congruence |]. rewrite H5, Hk. reflexivity. }
  2: { intros e s [(Hc & _ & _ & Hl) Hk]. unfold height_outcome.
       rewrite Hk, !heights_fetched_app. simpl. rewrite app_nil_r.
       repeat split; try reflexivity; intros; congruence. }
  intros block_data.
  eapply hoare_seq_logging
    with (P' := fun s =>
                  same_store s1 s
                  /\ calls s = (calls s1 ++ [hash_request height])
                                 ++ [mkRequest "getblock" [block_hash; JInt 2]]);
    [intros s H; exact H |].
  eapply hoare_bind
    with (R := fun r s =>
                 heights_fetched (calls s)
                 = heights_fetched (calls s1) ++ [height]
                 /\ (ref_ok (committed s1) = true -> ref_ok (committed s) = true)
                 /\ last_synced_height s = last_synced_height s1
                 /\ match r with
                    | Ok true => True
                    | _ => committed s = committed s1
                    end).
  { apply hoare_pointwise. intros s3 [(G1 & G2 & G3 & G4) Hk].
    eapply hoare_conseq; [apply (store_block_spec block_data s3) | auto |].
    intros r s (H1 & H2 & H3 & H4).
    rewrite H1, Hk, !heights_fetched_app. simpl.
    repeat split; [rewrite app_nil_r; reflexivity | | congruence |].
    - rewrite <- G1. exact H3.
    - destruct r as [[|] |]; congruence. }
  2: { intros e s (H1 & H2 & H3 & H4). unfold height_outcome. auto. }
  intros [|].
  - eapply hoare_seq_modify
      with (P' := fun s => heights_fetched (calls s)
                           = heights_fetched (calls s1) ++ [height]
                           /\ (ref_ok (committed s1) = true
                               -> ref_ok (committed s) = true)
                           /\ last_synced_height s = height).
    { intros s (H1 & H2 & H3 & H4). auto. }
    apply hoare_skip_logging; [intros s H; exact H |].
    apply hoare_ret. auto.
  - eapply hoare_seq_logging
      with (P' := fun s => heights_fetched (calls s)
                           = heights_fetched (calls s1) ++ [height]
                           /\ (ref_ok (committed s1) = true
                               -> ref_ok (committed s) = true)
                           /\ last_synced_height s = last_synced_height s1
                           /\ committed s = committed s1
                           /\ last_level s = Some ERROR).
    { intros s (H1 & H2 & H3 & H4). repeat split; auto.
      apply last_level_error. }
    apply hoare_ret. intros s (H1 & H2 & H3 & H4 & H5).
    unfold height_outcome. auto.
Qed.


(** ** The loop *)

Lemma sync_loop_cons height rest (s : state) :
  sync_loop W (height :: rest) s
  = match iteration W height s with
    | (Ok true, s') => sync_loop W rest s'
    | (Ok false, s') => (Ok tt, s')
    | (Raise e, s') => (Raise e, s')
    end.
Proof.
  unfold iteration. simpl. unfold bind at 1 3. simpl. unfold bind at 1.
  destruct (try_except _ _ _) as [[[|] | e] s']; reflexivity.
Qed.

Lemma sync_loop_turn height rest (s : state) :
  sync_loop W (height :: rest) s
  = match process_height W height (entering height s) with
    | (Ok true, s') => sync_loop W rest s'
    | (Ok false, s') => (Ok tt, s')
    | (Raise e, s') =>
        match on_height_error height e s' with
        | (Ok true, s'') => sync_loop W rest s''
        | (Ok false, s'') => (Ok tt, s'')
        | (Raise e', s'') => (Raise e', s'')
        end
    end.
Proof.
  rewrite sync_loop_cons. unfold iteration, entering, bind, try_except.
  simpl. destruct (process_height W height _) as [[[|] | e] s']; reflexivity.
Qed.


Lemma iteration_spec height (s0 : state) :
  hoare (eq s0) (iteration W height) (turn_outcome height s0).
Proof.
  unfold iteration.
  set (s1 := add_log (mkLog INFO ("Processing block at height "
                                    +:+ z_str height)) s0).
  eapply hoare_seq_logging with (P' := eq s1);
    [intros s <-; reflexivity |].
  eapply hoare_try_except; [apply process_height_spec | |].
  - intros [|] s H; exact H.
  - intros e. apply hoare_dispatch_cons; [intros _ | discriminate].
    unfold on_height_error.
    destruct (str_contains pruned_message (str_exn e)).
    + apply hoare_skip_logging; [intros s H; exact H |].
      eapply hoare_seq_modify
        with (P' := fun s => heights_fetched (calls s)
                             = heights_fetched (calls s0) ++ [height]
                             /\ (ref_ok (committed s0) = true
                                 -> ref_ok (committed s) = true)
                             /\ last_synced_height s = height).
      * intros s (H1 & H2 & H3). auto.
      * apply hoare_ret. auto.
    + eapply hoare_seq_logging
        with (P' := turn_outcome height s0 (Ok false)).
      * intros s (H1 & H2 & H3 & H4). repeat split; auto.
        apply last_level_error.
      * apply hoare_ret. auto.
Qed.

Lemma default_last_cons {A : Type} (d x : A) (l : list A) :
  default d (last (x :: l)) = default x (last l).
Proof.
  destruct l as [| y l]; [reflexivity |]. rewrite last_cons_cons.
  destruct (last (y :: l)) eqn:E; [reflexivity |].
  apply last_None in E. discriminate.
Qed.

Lemma sync_loop_spec heights (s0 : state) :
  exists s, sync_loop W heights s0 = (Ok tt, s) /\ loop_outcome heights s0 s.
Proof.
  revert s0. induction heights as [| h rest IH]; intros s0.
  - exists s0. split; [reflexivity |]. split; [auto |].
    exists 0%nat. simpl. rewrite app_nil_r. auto.
  - rewrite sync_loop_cons.
    destruct (iteration W h s0) as [r s1] eqn:E.
    pose proof (iteration_spec h s0 s0 r s1 eq_refl E) as (Hk & Hr & Hl).
    destruct r as [[|] | e]; [| | contradiction].
    + destruct (IH s1) as (s & Es & Hr' & n & Hn & Hk' & Hd).
      exists s. split; [exact Es |]. split; [auto |].
      exists (S n). split; [simpl; lia |]. split.
      * rewrite Hk', Hk, <- app_assoc. reflexivity.
      * destruct Hd as [[-> Hs] | (Hpos & Hs & He)].
        -- left. split; [reflexivity |].
           rewrite default_last_cons, <- Hl. exact Hs.
        -- right. split; [lia |]. split; [| exact He].
           destruct n as [| m]; [lia |].
           replace (S (S m) - 1)%nat with (S m) by lia.
           replace (S m - 1)%nat with m in Hs by lia.
           simpl take. rewrite default_last_cons, <- Hl. exact Hs.
    + destruct Hl as (Hl & Hc & He).
      exists s1. split; [reflexivity |]. split; [auto |].
      exists 1%nat. split; [simpl; lia |]. split; [exact Hk |].
      right. split; [lia |]. split; [exact Hl | exact He].
Qed.


(** ** One pass *)

Lemma get_prune_height_calls (c : list rpc_request) :
  hoare (fun s => calls s = c) (_get_prune_height W)
        (fun _ s => calls s = c ++ [info_request]).
Proof.
  unfold _get_prune_height.
  eapply hoare_try_except
    with (R := fun _ s => calls s = c ++ [info_request]).
  - eapply hoare_bind; [apply make_rpc_call_calls | | auto].
    intros chain_info. apply keeps_intro. repeat keeps_step.
  - auto.
  - intros e. apply keeps_dispatch.
    repeat first [apply Forall_nil_2 | apply Forall_cons_2]; simpl;
      repeat (keeps_step; auto).
Qed.

Lemma sync_latest_blocks_spec (s0 : state) (c p : Z) :
  fst (_make_rpc_call W "getblockcount" None s0) = Ok (JInt c) ->
  fst (_get_prune_height W s0) = Ok (JInt p) ->
  exists s, sync_latest_blocks W s0 = (Ok tt, s) /\ pass_outcome c p s0 s.
Proof.
  intros Hc Hp.
  destruct (make_rpc_call_oblivious "getblockcount" None) as (r & f & Hf).
  destruct get_prune_height_oblivious as (r' & g & Hg).
  rewrite Hf in Hc. rewrite Hg in Hp. simpl in Hc, Hp. subst r r'.
  assert (Ff : forall s, same_store s (f s)
                         /\ calls (f s) = calls s ++ [count_request]).
  { intros s. exact (make_rpc_call_frame "getblockcount" None s s _ _
                       eq_refl (Hf s)). }
  assert (Fg : forall s, same_store s (g s)
                         /\ calls (g s) = calls s ++ [info_request]).
  { intros s. split.
    - refine (get_prune_height_keeps (same_store s) _ _ s _ _ _ (Hg s));
        unfold same_store; simpl; tauto.
    - exact (get_prune_height_calls (calls s) s _ _ eq_refl (Hg s)). }
  unfold sync_latest_blocks, try_except.
  unfold bind at 1. unfold logging at 1, modify at 1.
  unfold bind at 1. rewrite Hf.
  unfold bind at 1. unfold logging at 1, modify at 1.
  unfold bind at 1. rewrite Hg.
  unfold bind at 1. unfold logging at 1, modify at 1.
  unfold bind at 1. unfold get_state at 1.
  unfold bind at 1. unfold lift at 1. unfold as_int at 1.
  unfold bind at 1. unfold logging at 1, modify at 1.
  unfold bind at 1. unfold lift at 1. unfold as_int at 1.
  set (s1 := add_log (mkLog INFO "Starting block sync") s0).
  set (s3 := add_log _ (f s1)). set (s5 := add_log _ (g s3)).
  assert (Hl : last_synced_height s5 = last_synced_height s0).
  { destruct (Ff s1) as [(_ & _ & _ & H1) _].
    destruct (Fg s3) as [(_ & _ & _ & H2) _].
    unfold s5. simpl. rewrite H2. unfold s3. simpl. rewrite H1. reflexivity. }
  assert (Hd : committed s5 = committed s0).
  { destruct (Ff s1) as [(H1 & _) _]. destruct (Fg s3) as [(H2 & _) _].
    unfold s5. simpl. rewrite H2. unfold s3. simpl. rewrite H1. reflexivity. }
  assert (Hk : calls s5 = calls s0 ++ [count_request; info_request]).
  { destruct (Ff s1) as [_ H1]. destruct (Fg s3) as [_ H2].
    unfold s5. simpl. rewrite H2. unfold s3. simpl. rewrite H1.
    unfold s1. simpl. rewrite <- app_assoc. reflexivity. }
  rewrite Hl. set (start := Z.max (last_synced_height s0 + 1) p).
  set (s6 := add_log _ s5).
  assert (Hl6 : last_synced_height s6 = last_synced_height s0) by exact Hl.
  assert (Hd6 : committed s6 = committed s0) by exact Hd.
  assert (Hk6 : calls s6 = calls s0 ++ [count_request; info_request])
    by exact Hk.
  clearbody s6. unfold pass_outcome. fold start.
  destruct (c <=? start)%Z eqn:Hcmp.
  - eexists. split; [reflexivity |]. simpl.
    rewrite Hd6, Hl6, Hk6. auto.
  - apply Z.leb_gt in Hcmp.
    destruct (sync_loop_spec (py_range start (c + 1)) s6)
      as (s & Es & Hr & n & Hn & Hh & Hcase).
    rewrite Es. exists s. split; [reflexivity |].
    rewrite Hd6 in Hr. split; [exact Hr |].
    rewrite py_range_length in Hn, Hcase.
    rewrite py_range_take in Hh by exact Hn.
    rewrite Hk6, heights_fetched_app in Hh. simpl in Hh.
    rewrite app_nil_r in Hh. rewrite Hl6 in Hcase.
    destruct Hcase as [[-> Hs] | (Hpos & Hs & He)].
    + exists (c - start + 1). split; [lia |]. split.
      * rewrite Hh. f_equal. f_equal. lia.
      * left. split; [reflexivity |].
        rewrite py_range_last in Hs by lia. simpl in Hs. lia.
    + exists (Z.of_nat n). split; [lia |]. split; [exact Hh |].
      right. rewrite py_range_take in Hs by lia.
      destruct (decide (n = 1%nat)) as [-> | Hne].
      * simpl in Hs. rewrite Z.add_0_r, py_range_empty in Hs. simpl in Hs.
        rewrite Hs. repeat split; [lia | lia | exact He].
      * rewrite py_range_last in Hs by lia. simpl in Hs.
        rewrite Hs. repeat split; [lia | lia | exact He].
Qed.


(** A pass catches whatever is raised in it. *)
Lemma sync_latest_blocks_returns (s : state) :
  fst (sync_latest_blocks W s) = Ok tt.
Proof.
  unfold sync_latest_blocks, try_except.
  destruct (bind _ _ s) as [[[] | e] s']; reflexivity.
Qed.

(** ** Invariants of the writer and of the loop, in general *)

Lemma keeps_commit (I : state -> Prop) :
  (forall s, I s -> I (set_committed (pending s) s)) -> keeps I (commit W).
Proof. intros H. apply hoare_commit; auto. Qed.

Lemma keeps_with_connection {A : Type} (I J : state -> Prop) (body : M A) :
  (forall s, I s -> J (set_pending (committed s) s)) ->
  keeps J body ->
  (forall s, J s -> I (set_committed (pending s) s)) ->
  (forall s, J s -> I (set_pending (committed s) s)) ->
  keeps I (with_connection W body).
Proof.
  intros Hc Hb Hok Hr.
  eapply hoare_with_connection with (P' := J) (R := fun _ => J); auto.
Qed.

Lemma store_transaction_keeps_inv (J : state -> Prop) tx_data block_id :
  (forall s r, J s -> J (add_log r s)) ->
  (forall s r, J s -> J (insert_transaction r s)) ->
  (forall s r, J s -> J (insert_input r s)) ->
  (forall s r, J s -> J (insert_output r s)) ->
  keeps J (_store_transaction W tx_data block_id).
Proof.
  intros Hlog Ht Hi Ho. unfold _store_transaction.
  repeat first [ apply keeps_execute_insert; intros vs s Hs; auto
               | keeps_step; auto ].
Qed.

Lemma store_block_keeps_inv (I J : state -> Prop) block_data :
  (forall s r, I s -> I (add_log r s)) ->
  (forall s r, J s -> J (add_log r s)) ->
  (forall s, I s -> J (set_pending (committed s) s)) ->
  (forall s r, J s -> J (insert_block r s)) ->
  (forall s r, J s -> J (insert_transaction r s)) ->
  (forall s r, J s -> J (insert_input r s)) ->
  (forall s r, J s -> J (insert_output r s)) ->
  (forall s, J s -> J (set_committed (pending s) s)) ->
  (forall s, J s -> I (set_committed (pending s) s)) ->
  (forall s, J s -> I (set_pending (committed s) s)) ->
  keeps I (_store_block W block_data).
Proof.
  intros HIlog HJlog Hconn Hb Ht Hi Ho Hcommit Hok Hraise.
  unfold _store_block. apply keeps_try_except.
  - apply (keeps_with_connection I J); auto.
    repeat first [ apply keeps_execute_insert; intros vs s Hs; auto
                 | apply store_transaction_keeps_inv; auto
                 | apply keeps_commit; auto
                 | keeps_step; auto ].
  - intros e. repeat first [apply Forall_nil_2 | apply Forall_cons_2]. simpl.
    repeat (keeps_step; auto).
Qed.

Lemma process_height_keeps_inv (I : state -> Prop) height :
  (forall s r, I s -> I (add_log r s)) ->
  (forall s r, I s -> I (add_call r s)) ->
  (forall block_data, keeps I (_store_block W block_data)) ->
  (forall s, I s -> I (set_last_synced_height height s)) ->
  keeps I (process_height W height).
Proof.
  intros Hlog Hcall Hstore Hset. unfold process_height.
  repeat first [ apply make_rpc_call_keeps; auto
               | apply Hstore
               | keeps_step; auto ].
Qed.

Lemma sync_loop_keeps_inv (I : state -> Prop) heights :
  (forall s r, I s -> I (add_log r s)) ->
  (forall s r, I s -> I (add_call r s)) ->
  (forall block_data, keeps I (_store_block W block_data)) ->
  Forall (fun h => forall s, I s -> I (set_last_synced_height h s)) heights ->
  keeps I (sync_loop W heights).
Proof.
  intros Hlog Hcall Hstore Hset.
  induction Hset as [| h rest Hh _ IH]; simpl.
  - apply keeps_ret.
  - apply keeps_bind; [apply keeps_logging; auto |]. intros _.
    apply keeps_bind.
    + apply keeps_try_except; [apply process_height_keeps_inv; auto |].
      intros e. repeat first [apply Forall_nil_2 | apply Forall_cons_2].
      simpl. unfold on_height_error. repeat (keeps_step; auto).
    + intros [|]; [exact IH | apply keeps_ret].
Qed.


Lemma sync_latest_blocks_keeps_inv (I : state -> Prop) :
  (forall s r, I s -> I (add_log r s)) ->
  (forall s r, I s -> I (add_call r s)) ->
  (forall block_data, keeps I (_store_block W block_data)) ->
  (forall s0 h, I s0 -> last_synced_height s0 < h ->
                forall s, I s -> I (set_last_synced_height h s)) ->
  keeps I (sync_latest_blocks W).
Proof.
  intros Hlog Hcall Hstore Hset. unfold sync_latest_blocks.
  apply keeps_try_except.
  2: { intros e. repeat first [apply Forall_nil_2 | apply Forall_cons_2].
       simpl. repeat (keeps_step; auto). }
  apply keeps_bind; [apply keeps_logging; auto | intros _].
  apply keeps_bind; [apply make_rpc_call_keeps; auto | intros current].
  apply keeps_bind; [apply keeps_logging; auto | intros _].
  apply keeps_bind; [apply get_prune_height_keeps; auto | intros prune].
  apply keeps_bind; [apply keeps_logging; auto | intros _].
  apply hoare_seq_get_state. intros s0.
  apply hoare_pointwise. intros s1 [H0 ->].
  eapply hoare_conseq with (P' := I) (Q' := fun _ => I);
    [| intros s <-; exact H0 | auto].
  apply keeps_intro.
  apply keeps_bind; [apply keeps_lift | intros prune_height].
  cbv zeta.
  apply keeps_bind; [apply keeps_logging; auto | intros _].
  apply keeps_bind; [apply keeps_lift | intros current_height].
  destruct (current_height <=? _)%Z; [apply keeps_logging; auto |].
  apply sync_loop_keeps_inv; auto.
  apply Forall_lookup. intros i h Hi.
  apply py_range_lookup in Hi. apply (Hset s0); [exact H0 | lia].
Qed.


(** ** Rows are only added *)

Lemma extends_refl (db : store) : extends db db.
Proof. repeat split; reflexivity. Qed.

Lemma extends_trans (a b c : store) :
  extends a b -> extends b c -> extends a c.
Proof.
  intros (H1 & H2 & H3 & H4) (G1 & G2 & G3 & G4).
  repeat split; etransitivity; eauto.
Qed.

Lemma growing_insert_block c0 r s :
  growing c0 s -> growing c0 (insert_block r s).
Proof.
  intros [Hc (H1 & H2 & H3 & H4)]. split; [exact Hc |].
  repeat split; simpl; auto. apply prefix_app_r, H1.
Qed.

Lemma growing_insert_transaction c0 r s :
  growing c0 s -> growing c0 (insert_transaction r s).
Proof.
  intros [Hc (H1 & H2 & H3 & H4)]. split; [exact Hc |].
  repeat split; simpl; auto. apply prefix_app_r, H2.
Qed.

Lemma growing_insert_input c0 r s :
  growing c0 s -> growing c0 (insert_input r s).
Proof.
  intros [Hc (H1 & H2 & H3 & H4)]. split; [exact Hc |].
  repeat split; simpl; auto. apply prefix_app_r, H3.
Qed.

Lemma growing_insert_output c0 r s :
  growing c0 s -> growing c0 (insert_output r s).
Proof.
  intros [Hc (H1 & H2 & H3 & H4)]. split; [exact Hc |].
  repeat split; simpl; auto. apply prefix_app_r, H4.
Qed.

Lemma store_block_extends c0 block_data :
  keeps (fun s => extends c0 (committed s)) (_store_block W block_data).
Proof.
  apply (store_block_keeps_inv (fun s => extends c0 (committed s))
                               (growing c0)).
  - auto.
  - auto.
  - intros s H. split; [exact H | apply extends_refl].
  - intros s r. apply growing_insert_block.
  - intros s r. apply growing_insert_transaction.
  - intros s r. apply growing_insert_input.
  - intros s r. apply growing_insert_output.
  - intros s [H1 H2]. split; [| apply extends_refl].
    exact (extends_trans _ _ _ H1 H2).
  - intros s [H1 H2]. exact (extends_trans _ _ _ H1 H2).
  - intros s [H1 H2]. exact H1.
Qed.

Lemma sync_latest_blocks_extends c0 :
  keeps (fun s => extends c0 (committed s)) (sync_latest_blocks W).
Proof.
  apply sync_latest_blocks_keeps_inv; auto.
  intros block_data. apply store_block_extends.
Qed.

(** ** The tracked height only goes up *)

Lemma store_block_keeps_height (P : Z -> Prop) block_data :
  keeps (fun s => P (last_synced_height s)) (_store_block W block_data).
Proof.
  apply (store_block_keeps_inv (fun s => P (last_synced_height s))
                               (fun s => P (last_synced_height s))); auto.
Qed.

Lemma sync_latest_blocks_monotone (l : Z) :
  keeps (fun s => l <= last_synced_height s) (sync_latest_blocks W).
Proof.
  apply sync_latest_blocks_keeps_inv; auto.
  - intros block_data. apply (store_block_keeps_height (fun h => l <= h)).
  - intros s0 h H0 Hh s Hs. simpl. lia.
Qed.


Lemma store_transaction_frame tx_data block_id (c : store)
    (k : list rpc_request) (l : Z) :
  keeps (fun s => committed s = c /\ calls s = k /\ last_synced_height s = l)
        (_store_transaction W tx_data block_id).
Proof. apply store_transaction_keeps_inv; auto. Qed.


(** ** Referential integrity *)

Lemma process_height_keeps_ok height :
  keeps committed_ok (process_height W height).
Proof.
  apply hoare_pointwise. intros s0 H0 s r s' <- E.
  destruct (process_height_spec height s0 s0 r s' eq_refl E) as (_ & H & _).
  exact (H H0).
Qed.

Lemma sync_loop_keeps_ok heights : keeps committed_ok (sync_loop W heights).
Proof.
  induction heights as [| h rest IH]; simpl.
  - apply keeps_ret.
  - apply keeps_bind; [apply keeps_logging; auto |]. intros _.
    apply keeps_bind.
    + apply keeps_try_except; [apply process_height_keeps_ok |].
      intros e. repeat first [apply Forall_nil_2 | apply Forall_cons_2].
      simpl. unfold on_height_error. repeat (keeps_step; auto).
    + intros [|]; [exact IH | apply keeps_ret].
Qed.

Lemma sync_latest_blocks_keeps_ok : keeps committed_ok (sync_latest_blocks W).
Proof.
  unfold sync_latest_blocks.
  repeat first [ apply make_rpc_call_keeps; auto
               | apply get_prune_height_keeps; auto
               | apply sync_loop_keeps_ok
               | keeps_step; auto ].
Qed.


(** ** Failures *)

Lemma get_prune_height_value (s : state) :
  fst (_get_prune_height W s)
  = Ok (match fst (_make_rpc_call W "getblockchaininfo" None s) with
        | Ok (JDict d) =>
            match dict_get "pruneheight" d with
            | Some v => v
            | None => JInt 0
            end
        | _ => JInt 0
        end).
Proof.
  destruct (make_rpc_call_oblivious "getblockchaininfo" None)
    as (r & f & Hf).
  unfold _get_prune_height, try_except, bind. rewrite !Hf. simpl.
  destruct r as [[| b | z | x | t | l | d] | e]; simpl; try reflexivity.
  - destruct (str_contains "pruneheight" t); reflexivity.
  - destruct (list_has_str "pruneheight" l); reflexivity.
  - unfold dict_has. destruct (dict_get "pruneheight" d); reflexivity.
Qed.

Lemma hoare_any {A : Type} (m : M A) :
  hoare (fun _ => True) m (fun _ _ => True).
Proof. intros s r s' _ _. exact I. Qed.

Lemma make_rpc_call_failure_logged method params :
  hoare (fun _ => True) (_make_rpc_call W method params)
        (fun r s => match r with
                    | Raise _ => last_level s = Some ERROR
                    | Ok _ => True
                    end).
Proof.
  unfold _make_rpc_call.
  do 3 (apply hoare_skip_logging; [auto |]).
  eapply hoare_try_except; [apply hoare_any | auto |].
  intros e.
  assert (Hraise : hoare (fun s => last_level s = Some ERROR) (@raise json e)
                         (fun r s => match r with
                                     | Raise _ => last_level s = Some ERROR
                                     | Ok _ => True
                                     end))
    by (apply hoare_raise; auto).
  apply hoare_dispatch_cons; [intros _ | intros _].
  - eapply hoare_seq_logging
      with (P' := fun s => last_level s = Some ERROR);
      [intros s _; apply last_level_error |].
    destruct (response e) as [text |].
    + eapply hoare_seq_logging
        with (P' := fun s => last_level s = Some ERROR);
        [intros s _; apply last_level_error | exact Hraise].
    + eapply hoare_bind with (R := fun _ s => last_level s = Some ERROR);
        [apply keeps_ret | intros _; exact Hraise | auto].
  - apply hoare_dispatch_cons; [intros _ | intros _].
    + eapply hoare_seq_logging
        with (P' := fun s => last_level s = Some ERROR);
        [intros s _; apply last_level_error |].
      eapply hoare_seq_logging
        with (P' := fun s => last_level s = Some ERROR);
        [intros s _; apply last_level_error | exact Hraise].
    + apply hoare_dispatch_cons; [intros _ | discriminate].
      eapply hoare_seq_logging
        with (P' := fun s => last_level s = Some ERROR);
        [intros s _; apply last_level_error | exact Hraise].
Qed.

Lemma sync_latest_blocks_count_fails (s : state) (e : exn) :
  fst (_make_rpc_call W "getblockcount" None s) = Raise e ->
  let s' := snd (sync_latest_blocks W s) in
  calls s' = calls s ++ [count_request]
  /\ same_store s s'
  /\ last_level s' = Some ERROR.
Proof.
  intros He.
  destruct (make_rpc_call_oblivious "getblockcount" None) as (r & f & Hf).
  rewrite Hf in He. simpl in He. subst r.
  set (s1 := add_log (mkLog INFO "Starting block sync") s).
  assert (E : sync_latest_blocks W s
              = (Ok tt, add_log (mkLog ERROR ("Sync failed: " +:+ str_exn e))
                                (f s1))).
  { unfold sync_latest_blocks, try_except.
    unfold bind at 1. unfold logging at 1, modify at 1.
    unfold bind at 1. rewrite Hf. reflexivity. }
  rewrite E. simpl.
  destruct (make_rpc_call_frame "getblockcount" None s1 s1 _ _
              eq_refl (Hf s1)) as [Hs Hk].
  split; [exact Hk |]. split; [exact Hs |]. apply last_level_error.
Qed.

(** What a [try] with the one clause [except sqlite3.Error] lets out is
    not an [sqlite3.Error], when the handler returns. *)
Lemma try_except_sqlite_caught {A : Type} (body : M A) (h : exn -> M A)
    (s : state) (e : exn) :
  (forall e' s', exists a s'', h e' s' = (Ok a, s'')) ->
  fst (try_except body [(is_sqlite_error, h)] s) = Raise e ->
  is_sqlite_error e = false.
Proof.
  intros Hh. unfold try_except.
  destruct (body s) as [[a | e0] s1]; simpl; [discriminate |].
  destruct (is_sqlite_error e0) eqn:E0.
  - destruct (Hh e0 s1) as (a & s2 & ->). discriminate.
  - intros H. inversion H; subst. exact E0.
Qed.

Lemma block_params_missing d k :
  In k required_block_fields -> dict_get k d = None ->
  exists k', In k' required_block_fields
             /\ dict_get k' d = None
             /\ block_params (JDict d) = Raise (key_error k').
Proof.
  intros Hin Hk. unfold block_params. simpl.
  destruct (dict_get "hash" d) eqn:E1;
    [| exists "hash"; split; [simpl; tauto | auto]].
  destruct (dict_get "height" d) eqn:E2;
    [| exists "height"; split; [simpl; tauto | auto]].
  destruct (dict_get "version" d) eqn:E3;
    [| exists "version"; split; [simpl; tauto | auto]].
  destruct (dict_get "time" d) eqn:E4;
    [| exists "time"; split; [simpl; tauto | auto]].
  destruct (dict_get "size" d) eqn:E5;
    [| exists "size"; split; [simpl; tauto | auto]].
  destruct (dict_get "weight" d) eqn:E6;
    [| exists "weight"; split; [simpl; tauto | auto]].
  destruct (dict_get "merkleroot" d) eqn:E7;
    [| exists "merkleroot"; split; [simpl; tauto | auto]].
  destruct (dict_get "nonce" d) eqn:E8;
    [| exists "nonce"; split; [simpl; tauto | auto]].
  destruct (dict_get "bits" d) eqn:E9;
    [| exists "bits"; split; [simpl; tauto | auto]].
  destruct (dict_get "difficulty" d) eqn:E10;
    [| exists "difficulty"; split; [simpl; tauto | auto]].
  simpl in Hin.
  destruct Hin as [<- | [<- | [<- | [<- | [<- | [<- | [<- | [<- | [<- | [<- | []]]]]]]]]]];
    congruence.
Qed.

Lemma store_block_params_raise block_data e (s : state) :
  block_params block_data = Raise e -> is_sqlite_error e = false ->
  fst (_store_block W block_data s) = Raise e
  \/ fst (_store_block W block_data s) = Ok false.
Proof.
  intros Hp He.
  unfold _store_block, try_except, with_connection, bind, connect, lift.
  rewrite Hp.
  destruct (db_check W (committed s) Connect); simpl; [right; reflexivity |].
  rewrite He. left. reflexivity.
Qed.


(** ** The height tracker *)





Lemma get_last_synced_height_run (s : state) :
  exists s',
    _get_last_synced_height W s
    = (Ok (if tracker_served W (committed s)
           then match max_height (blocks (committed s)) with
                | Some h => h
                | None => 0
                end
           else 0), s')
    /\ committed s' = committed s
    /\ last_synced_height s' = last_synced_height s
    /\ calls s' = calls s.
Proof.
  unfold _get_last_synced_height, try_except, with_connection, bind, connect,
    prepare, run, get_state, ret, tracker_served.
  simpl.
  destruct (db_check W (committed s) Connect); simpl; [eauto |].
  destruct (db_prepare W (committed s) Blocks); simpl; [eauto |].
  destruct (db_check W (committed s) SelectMaxHeight); simpl; eauto.
Qed.


(** ** The RPC client *)

Lemma str_contains_append (needle before hay : string) :
  str_contains needle hay = true ->
  str_contains needle (before +:+ hay) = true.
Proof.
  intros H. induction before as [| c before IH]; simpl; [exact H |].
  rewrite IH. destruct needle; [reflexivity |].
  destruct (Ascii.ascii_dec _ _); [destruct (String.prefix _ _) |];
    reflexivity.
Qed.

(** A value comes back only as the [result] member of a reply. *)
Lemma make_rpc_call_ok method params (s : state) (v : json) :
  fst (_make_rpc_call W method params s) = Ok v ->
  exists status_code reason url text d,
    node W (mkRequest method (payload_params params))
    = Response status_code reason url text
    /\ http_error_status status_code = false
    /\ json_loads W text = Some (JDict d)
    /\ dict_get "result" d = Some v
    /\ (dict_get "error" d = None \/ dict_get "error" d = Some JNull).
Proof.
  unfold _make_rpc_call, try_except, bind, logging, modify, raise_for_status,
    http_error_status, payload_params.
  simpl.
  destruct (node W _) as [m | status_code reason url text]; simpl;
    [discriminate |].
  destruct ((400 <=? status_code) && (status_code <? 500))%Z eqn:E4; simpl;
    [discriminate |].
  destruct ((500 <=? status_code) && (status_code <? 600))%Z eqn:E5; simpl;
    [discriminate |].
  destruct (json_loads W text) as [result |] eqn:El; simpl; [| discriminate].
  destruct result as [| b | z | f | t | l | d]; simpl; try discriminate.
  - destruct (str_contains "error" t); simpl; discriminate.
  - destruct (list_has_str "error" l); simpl; discriminate.
  - unfold dict_has. destruct (dict_get "error" d) as [err |] eqn:Ee; simpl.
    + destruct err; simpl; try discriminate.
      destruct (dict_get "result" d) as [v' |] eqn:Er; simpl; [| discriminate].
      intros H. inversion H; subst.
      exists status_code, reason, url, text, d. repeat split; auto; lia.
    + destruct (dict_get "result" d) as [v' |] eqn:Er; simpl; [| discriminate].
      intros H. inversion H; subst.
      exists status_code, reason, url, text, d. repeat split; auto; lia.
Qed.

(** A reply with an error makes the call raise the rendering of the
    error. *)
Lemma make_rpc_call_error method params (s : state) status_code reason url
    text d err :
  node W (mkRequest method (payload_params params))
  = Response status_code reason url text ->
  http_error_status status_code = false ->
  json_loads W text = Some (JDict d) ->
  dict_get "error" d = Some err -> err <> JNull ->
  fst (_make_rpc_call W method params s)
  = Raise (mkExn PlainException ("RPC error: " +:+ py_str W err) None).
Proof.
  intros Hn Hs Hl He Hnull.
  unfold _make_rpc_call, try_except, bind, logging, modify, raise_for_status.
  fold (payload_params params). simpl. rewrite Hn. simpl.
  unfold http_error_status in Hs.
  replace ((400 <=? status_code) && (status_code <? 500))%Z with false by lia.
  replace ((500 <=? status_code) && (status_code <? 600))%Z with false by lia.
  simpl. rewrite Hl. simpl. unfold dict_has. rewrite He. simpl.
  destruct err; simpl; try reflexivity. contradiction.
Qed.

(** An HTTP error status makes the call raise the status line, whatever
    the body says. *)
Lemma make_rpc_call_http_error method params (s : state) status_code reason
    url text :
  node W (mkRequest method (payload_params params))
  = Response status_code reason url text ->
  http_error_status status_code = true ->
  fst (_make_rpc_call W method params s)
  = Raise (mkExn RequestException
             (z_str status_code
                +:+ (if (status_code <? 500)%Z then " Client Error: "
                     else " Server Error: ")
                +:+ reason +:+ " for url: " +:+ url) (Some text)).
Proof.
  intros Hn Hs.
  unfold _make_rpc_call, try_except, bind, logging, modify, raise_for_status.
  fold (payload_params params). simpl. rewrite Hn. simpl.
  unfold http_error_status in Hs.
  destruct (status_code <? 500)%Z eqn:E.
  - replace ((400 <=? status_code) && true)%Z with true by lia. reflexivity.
  - replace ((400 <=? status_code) && false)%Z with false by lia.
    replace ((500 <=? status_code) && (status_code <? 600))%Z with true by lia.
    reflexivity.
Qed.


Lemma init_run (s : state) :
  fst (_get_last_synced_height W s)
  = Ok (last_synced_height (snd (__init__ W s))).
Proof.
  destruct (get_last_synced_height_run s) as (s' & E & _).
  unfold __init__, bind. rewrite E. reflexivity.
Qed.




(** ** The rows of a block *)












End MethodFacts.

(** * The claims *)

Import BlockchainSync.

(** C3, as the claim states it, fails, on two counts.  The start height
    is computed from the field [last_synced_height] of the object, not from
    what the height tracker reads in the store: after a pass over two
    pruned heights the store is empty and the tracker reads 0, so that
    [max (0 + 1) 0 = 1] is below the chain height 3, and yet the next pass
    of the object requests no height, its field being at 2.  And a pass
    whose start height is below the chain height need not go up to the
    chain height: with a node that cannot be reached for the blocks, the
    pass started at 1 for the chain height 3 requests the height 1 and
    stops. *)
Lemma start_height_from_field_and_early_stop :
  let s1 := snd (sync_latest_blocks pruned_world
                   (snd (__init__ pruned_world initial_state))) in
  fst (_get_last_synced_height healthy_world s1) = Ok 0
  /\ fst (_make_rpc_call healthy_world "getblockcount" None s1) = Ok (JInt 3)
  /\ fst (_get_prune_height healthy_world s1) = Ok (JInt 0)
  /\ heights_fetched (calls (snd (sync_latest_blocks healthy_world s1)))
     = heights_fetched (calls s1)
  /\ last_synced_height initial_state = 0
  /\ fst (_make_rpc_call unreachable_world "getblockcount" None initial_state)
     = Ok (JInt 3)
  /\ fst (_get_prune_height unreachable_world initial_state) = Ok (JInt 0)
  /\ heights_fetched
       (calls (snd (sync_latest_blocks unreachable_world initial_state)))
     = [1].
Proof. vm_compute. repeat split; reflexivity. Qed.

(** C3, amended.  In a pass that learns the chain height [c] and the prune
    height [p], the start height is [max (last_synced_height + 1) p], for
    the value the field [last_synced_height] of the object has when the
    pass begins.  If [c <= start_height] the pass makes its two probing
    requests and nothing else: no block is fetched, the store and the
    tracked height are unchanged.  Otherwise the pass requests at least one
    height and at most [c - start_height + 1]; the height of its [i]-th
    request, counting from 0, is [start_height + i], so that the heights
    are requested one by one in strictly increasing order and none is above
    [c].  Either they go all the way to [c], and the tracked height is then
    [c], or the pass stopped on an error it logged, with the tracked height
    below the last height it requested. *)
Theorem sync_pass_range (W : World) (s : state) (c p : Z) :
  fst (_make_rpc_call W "getblockcount" None s) = Ok (JInt c) ->
  fst (_get_prune_height W s) = Ok (JInt p) ->
  let start_height := Z.max (last_synced_height s + 1) p in
  let s' := snd (sync_latest_blocks W s) in
  (c <= start_height ->
   calls s' = calls s ++ [count_request; info_request]
   /\ committed s' = committed s
   /\ last_synced_height s' = last_synced_height s)
  /\ (start_height < c ->
      exists hs : list Z,
        heights_fetched (calls s') = heights_fetched (calls s) ++ hs
        /\ (1 <= length hs)%nat
        /\ Z.of_nat (length hs) <= c - start_height + 1
        /\ (forall i : nat,
              (i < length hs)%nat ->
              hs !! i = Some (start_height + Z.of_nat i))
        /\ ((Z.of_nat (length hs) = c - start_height + 1
             /\ last_synced_height s' = c)
            \/ (last_level s' = Some ERROR
                /\ last_synced_height s'
                   < start_height + Z.of_nat (length hs) - 1))).
Proof.
  intros Hc Hp start_height s'.
  destruct (sync_latest_blocks_spec W s c p Hc Hp) as (s1 & E & _ & H).
  unfold s'. rewrite E. simpl. fold start_height in H. split.
  - intros Hle. apply Z.leb_le in Hle. rewrite Hle in H. exact H.
  - intros Hlt. apply Z.leb_gt in Hlt. rewrite Hlt in H.
    destruct H as (n & Hn & Hh & Hcase).
    exists (py_range start_height (start_height + n)).
    assert (Hlen : length (py_range start_height (start_height + n))
                   = Z.to_nat n).
    { rewrite py_range_length. f_equal. lia. }
    rewrite Hlen.
    split; [exact Hh |]. split; [lia |]. split; [lia |]. split.
    + intros i Hi. apply py_range_lookup_lt. lia.
    + destruct Hcase as [[Hn' Hl] | (Hl & _ & He)]; [left | right].
      * split; [lia | exact Hl].
      * split; [exact He | lia].
Qed.

Lemma sync_pass_range_witness :
  fst (_make_rpc_call healthy_world "getblockcount" None initial_state)
  = Ok (JInt 3)
  /\ fst (_get_prune_height healthy_world initial_state) = Ok (JInt 0)
  /\ Z.max (last_synced_height initial_state + 1) 0 = 1
  /\ exists hs : list Z,
       heights_fetched
         (calls (snd (sync_latest_blocks healthy_world initial_state)))
       = hs
       /\ (1 <= length hs)%nat
       /\ (forall i : nat,
             (i < length hs)%nat -> hs !! i = Some (1 + Z.of_nat i)).
Proof.
  split; [vm_compute; reflexivity |]. split; [vm_compute; reflexivity |].
  split; [reflexivity |].
  destruct (sync_pass_range healthy_world initial_state 3 0) as [_ H];
    [vm_compute; reflexivity | vm_compute; reflexivity |].
  destruct H as (hs & Hh & Hone & _ & Hi & _); [vm_compute; reflexivity |].
  exists hs. split; [exact Hh |]. split; [exact Hone | exact Hi].
Defined.



(** C5, as the claim states it, fails, on two counts.  A pass in which a
    height fails for another reason than pruning does not surface the error
    to its caller: with a node that cannot be reached for the first height,
    the pass logs the error and returns as a pass without failure does.
    And the failed height is not always tried again: with a node that
    cannot be reached for the height 3 of a chain of height 3, the pass
    requests 1, 2 and 3 and stops with the tracked height 2; the next pass
    computes the start height 3, finds the chain height not above it, and
    requests nothing. *)
Lemma failed_pass_returns_normally :
  let s1 := snd (sync_latest_blocks tip_unreachable_world initial_state) in
  fst (process_height unreachable_world 1 (entering 1 initial_state))
  = Raise (mkExn RequestException "Connection refused" None)
  /\ fst (sync_latest_blocks unreachable_world initial_state) = Ok tt
  /\ fst (sync_latest_blocks unreachable_world initial_state)
     = fst (sync_latest_blocks healthy_world initial_state)
  /\ last_level (snd (sync_latest_blocks unreachable_world initial_state))
     = Some ERROR
  /\ heights_fetched (calls s1) = [1; 2; 3]
  /\ last_synced_height s1 = 2
  /\ last_level s1 = Some ERROR
  /\ heights_fetched (calls (snd (sync_latest_blocks tip_unreachable_world s1)))
     = [1; 2; 3].
Proof. vm_compute. repeat split; reflexivity. Qed.

(** C5, amended.  When the attempt at a height ends in an exception whose
    message does not name pruned data, or [_store_block] returns [False],
    the loop stops there: no later height is requested, the tracked height
    and the committed rows are those of before the attempt, and the error is
    logged.  Nothing is raised to the caller: the loop, and every pass,
    returns normally.  A pass over the heights up to [c] that ends with a
    tracked height other than [c] stopped in this way, on a logged error at
    the last height [h] it requested, with the tracked height below [h].
    The next pass of the object, the node reporting the same chain height
    and prune height, requests [h] first when [h < c]; when [h = c], it
    takes the database for up to date: it requests no height and leaves the
    store and the tracked height as they are. *)
Theorem failed_height_stops_pass (W : World) (height : Z) (rest : list Z)
    (s : state) :
  (fst (process_height W height (entering height s)) = Ok false
   \/ exists e,
        fst (process_height W height (entering height s)) = Raise e
        /\ str_contains pruned_message (str_exn e) = false) ->
  let s' := snd (sync_loop W (height :: rest) s) in
  fst (sync_loop W (height :: rest) s) = Ok tt
  /\ heights_fetched (calls s') = heights_fetched (calls s) ++ [height]
  /\ last_synced_height s' = last_synced_height s
  /\ committed s' = committed s
  /\ last_level s' = Some ERROR
  /\ (forall s0, fst (sync_latest_blocks W s0) = Ok tt)
  /\ (forall (s0 : state) (c p : Z),
        fst (_make_rpc_call W "getblockcount" None s0) = Ok (JInt c) ->
        fst (_get_prune_height W s0) = Ok (JInt p) ->
        Z.max (last_synced_height s0 + 1) p < c ->
        let s1 := snd (sync_latest_blocks W s0) in
        let s2 := snd (sync_latest_blocks W s1) in
        last_synced_height s1 <> c ->
        exists hs h,
          heights_fetched (calls s1) = heights_fetched (calls s0) ++ hs
          /\ last hs = Some h
          /\ last_synced_height s1 < h <= c
          /\ last_level s1 = Some ERROR
          /\ (h < c ->
              exists later,
                heights_fetched (calls s2)
                = heights_fetched (calls s1) ++ h :: later)
          /\ (h = c ->
              calls s2 = calls s1 ++ [count_request; info_request]
              /\ committed s2 = committed s1
              /\ last_synced_height s2 = last_synced_height s1)).
Proof.
  intros H s'.
  assert (Hloop :
            fst (sync_loop W (height :: rest) s) = Ok tt
            /\ heights_fetched (calls s')
               = heights_fetched (calls s) ++ [height]
            /\ last_synced_height s' = last_synced_height s
            /\ committed s' = committed s
            /\ last_level s' = Some ERROR).
  { unfold s'. rewrite sync_loop_turn.
    destruct (process_height W height (entering height s)) as [r s1] eqn:E.
    pose proof (process_height_spec W height _ _ _ _ eq_refl E)
      as (Hk & _ & Hr).
    simpl in H. destruct H as [-> | (e & -> & Hp)].
    - destruct Hr as (Hl & Hc & He). simpl. repeat split; auto.
    - destruct Hr as (Hl & Hc). unfold on_height_error. rewrite Hp.
      unfold bind, logging, modify, ret. simpl.
      repeat split; auto using last_level_error. }
  destruct Hloop as (L1 & L2 & L3 & L4 & L5).
  split; [exact L1 |]. split; [exact L2 |]. split; [exact L3 |].
  split; [exact L4 |]. split; [exact L5 |].
  split; [apply sync_latest_blocks_returns |].
  clear. intros s0 c p Hc Hp Hlt s1 s2 Hne.
  assert (Hc1 : fst (_make_rpc_call W "getblockcount" None s1) = Ok (JInt c)).
  { rewrite <- Hc. apply oblivious_result, make_rpc_call_oblivious. }
  assert (Hp1 : fst (_get_prune_height W s1) = Ok (JInt p)).
  { rewrite <- Hp. apply oblivious_result, get_prune_height_oblivious. }
  destruct (sync_latest_blocks_spec W s1 c p Hc1 Hp1) as (t2 & E2 & _ & H2).
  destruct (sync_latest_blocks_spec W s0 c p Hc Hp) as (t & E & _ & H).
  unfold s2. rewrite E2. clear E2. unfold s1 in *. rewrite E in *.
  simpl in *. clear E.
  set (start := Z.max (last_synced_height s0 + 1) p) in *.
  replace (c <=? start)%Z with false in H by (symmetry; apply Z.leb_gt; lia).
  destruct H as (n & Hn & Hh & [[_ Hl] | (Hl & Hm & He)]); [contradiction |].
  exists (py_range start (start + n)), (start + n - 1).
  split; [exact Hh |].
  split; [rewrite py_range_last by lia; f_equal; lia |].
  split; [lia |]. split; [exact He |].
  rewrite Hm in H2. split.
  - intros Hhc.
    replace (c <=? start + n - 1)%Z with false in H2
      by (symmetry; apply Z.leb_gt; lia).
    destruct H2 as (n2 & Hn2 & Hh2 & _).
    rewrite py_range_cons in Hh2 by lia. eauto.
  - intros Hhc.
    replace (c <=? start + n - 1)%Z with true in H2
      by (symmetry; apply Z.leb_le; lia).
    exact H2.
Qed.

Lemma failed_height_stops_pass_witness :
  let s1 := snd (sync_latest_blocks unreachable_world initial_state) in
  fst (process_height unreachable_world 1 (entering 1 initial_state))
  = Raise (mkExn RequestException "Connection refused" None)
  /\ fst (sync_loop unreachable_world [1; 2; 3] initial_state) = Ok tt
  /\ heights_fetched
       (calls (snd (sync_loop unreachable_world [1; 2; 3] initial_state)))
     = [1]
  /\ last_synced_height
       (snd (sync_loop unreachable_world [1; 2; 3] initial_state)) = 0
  /\ last_synced_height s1 = 0
  /\ exists hs h,
       heights_fetched (calls s1) = hs /\ last hs = Some h
       /\ h <= 3
       /\ (h < 3 ->
           exists later,
             heights_fetched
               (calls (snd (sync_latest_blocks unreachable_world s1)))
             = heights_fetched (calls s1) ++ h :: later).
Proof.
  intros s1. split; [vm_compute; reflexivity |].
  destruct (failed_height_stops_pass unreachable_world 1 [2; 3] initial_state)
    as (H1 & H2 & H3 & _ & _ & _ & H7).
  - right. exists (mkExn RequestException "Connection refused" None).
    split; vm_compute; reflexivity.
  - split; [exact H1 |]. split; [exact H2 |]. split; [exact H3 |].
    split; [vm_compute; reflexivity |].
    destruct (H7 initial_state 3 0) as (hs & h & G1 & G2 & G3 & _ & G5 & _);
      [vm_compute; reflexivity | vm_compute; reflexivity
       | vm_compute; reflexivity | vm_compute; discriminate |].
    exists hs, h. split; [exact G1 |]. split; [exact G2 |].
    split; [lia | exact G5].
Defined.

(** C8. A pass keeps the referential integrity of the committed store,
    however it ends: if, before the pass, every input and output row
    refers to a transaction row and every transaction row to a block row,
    the same holds after it. *)
Theorem sync_keeps_referential_integrity (W : World) (s : state) :
  ref_ok (committed s) = true ->
  ref_ok (committed (snd (sync_latest_blocks W s))) = true.
Proof.
  intros H. destruct (sync_latest_blocks W s) as [r s'] eqn:E.
  exact (sync_latest_blocks_keeps_ok W s r s' H E).
Qed.

Lemma sync_keeps_referential_integrity_witness :
  ref_ok (committed initial_state) = true
  /\ ref_ok (committed (snd (sync_latest_blocks healthy_world initial_state)))
     = true.
Proof.
  split; [reflexivity |].
  apply (sync_keeps_referential_integrity healthy_world initial_state).
  reflexivity.
Defined.

(** C1 does not hold of the code.  The block of height 1 has one
    transaction; the engine refuses the INSERT of the transaction row.
    [_store_transaction] catches the error and returns [False], which
    [_store_block] does not look at: it commits the block row alone and
    returns [True].  The height tracker then reports height 1, and a pass
    tracks all three heights, although no transaction, input or output row
    of these blocks is in the store. *)
Theorem store_block_partial_commit :
  let payload := demo_block 1 [demo_coinbase 1] in
  let run := _store_block rejecting_world payload initial_state in
  fst run = Ok true
  /\ map height_of (blocks (committed (snd run))) = [Some 1]
  /\ transactions (committed (snd run)) = []
  /\ inputs (committed (snd run)) = []
  /\ outputs (committed (snd run)) = []
  /\ fst (_get_last_synced_height rejecting_world (snd run)) = Ok 1
  /\ length (transactions
               (committed
                  (snd (_store_block healthy_world payload initial_state))))
     = 1%nat
  /\ last_synced_height
       (snd (sync_latest_blocks rejecting_world initial_state)) = 3
  /\ transactions
       (committed (snd (sync_latest_blocks rejecting_world initial_state)))
     = [].
Proof. vm_compute. repeat split; reflexivity. Qed.

(** C2, as the claim states it, fails: a pass reads the field
    [last_synced_height] of the object, not the store.  A first pass over
    two pruned heights leaves the store empty and the field at 2.  On a
    healthy node of chain height 3, the next pass of the same object
    starts from the field: it fetches nothing, while the height tracker
    reads 0 from the store, and an object initialised again fetches the
    heights 1, 2 and 3. *)
Lemma cached_height_trusted_across_passes :
  let s1 := snd (sync_latest_blocks pruned_world
                   (snd (__init__ pruned_world initial_state))) in
  committed s1 = empty_store
  /\ last_synced_height s1 = 2
  /\ fst (_get_last_synced_height healthy_world s1) = Ok 0
  /\ heights_fetched (calls (snd (sync_latest_blocks healthy_world s1)))
     = heights_fetched (calls s1)
  /\ committed (snd (sync_latest_blocks healthy_world s1)) = empty_store
  /\ heights_fetched
       (calls (snd (sync_latest_blocks healthy_world
                      (snd (__init__ healthy_world s1)))))
     = heights_fetched (calls s1) ++ [1; 2; 3].
Proof. vm_compute. repeat split; reflexivity. Qed.

(** C2, amended.  The tracked height is recomputed from the store when the
    object is initialised: [__init__] sets the field to what the height
    tracker returns.  A pass does not recompute it: its start height is
    [max (last_synced_height + 1) p] for the value the field has when the
    pass begins, whatever the store holds; it fetches nothing when the chain
    height is not above it, and otherwise the first height it asks for is
    that start height. *)
Theorem tracked_height_read_from_memory (W : World) (s : state) (c p : Z) :
  fst (_make_rpc_call W "getblockcount" None s) = Ok (JInt c) ->
  fst (_get_prune_height W s) = Ok (JInt p) ->
  let start_height := Z.max (last_synced_height s + 1) p in
  let s' := snd (sync_latest_blocks W s) in
  fst (_get_last_synced_height W s)
  = Ok (last_synced_height (snd (__init__ W s)))
  /\ (c <= start_height ->
      heights_fetched (calls s') = heights_fetched (calls s))
  /\ (start_height < c ->
      exists later,
        heights_fetched (calls s')
        = heights_fetched (calls s) ++ start_height :: later).
Proof.
  intros Hc Hp start_height s'. split; [apply init_run |].
  destruct (sync_latest_blocks_spec W s c p Hc Hp) as (s1 & E & _ & H).
  unfold s'. rewrite E. simpl. fold start_height in H. split.
  - intros Hle. apply Z.leb_le in Hle. rewrite Hle in H.
    destruct H as (-> & _). rewrite heights_fetched_app. simpl.
    apply app_nil_r.
  - intros Hlt. apply Z.leb_gt in Hlt. rewrite Hlt in H.
    destruct H as (n & Hn & Hh & _).
    rewrite py_range_cons in Hh by lia. eauto.
Qed.

Lemma tracked_height_read_from_memory_witness :
  let s1 := snd (sync_latest_blocks pruned_world
                   (snd (__init__ pruned_world initial_state))) in
  fst (_make_rpc_call healthy_world "getblockcount" None s1) = Ok (JInt 3)
  /\ fst (_get_prune_height healthy_world s1) = Ok (JInt 0)
  /\ heights_fetched (calls (snd (sync_latest_blocks healthy_world s1)))
     = heights_fetched (calls s1).
Proof.
  intros s1.
  split; [vm_compute; reflexivity |]. split; [vm_compute; reflexivity |].
  destruct (tracked_height_read_from_memory healthy_world s1 3 0)
    as (_ & H & _); [vm_compute; reflexivity | vm_compute; reflexivity |].
  apply H. vm_compute. discriminate.
Defined.







(** C9, as the claim states it, fails: the body of the reply has a non-null
    error, with the message of a pruned block, but its status is 500;
    [raise_for_status] raises before the body is read, and the exception
    carries the status line, not the message of the node.  The pass then
    stops at height 1 instead of skipping it. *)
Lemma http_error_hides_node_message :
  error_status_node (mkRequest "getblockhash" [JInt 1])
  = Response 500 "Internal Server Error" "http://127.0.0.1:8332/"
             (demo_dumps (reply JNull pruned_error))
  /\ demo_loads (demo_dumps (reply JNull pruned_error))
     = Some (reply JNull pruned_error)
  /\ dict_get "error" (members (reply JNull pruned_error))
     = Some pruned_error
  /\ fst (_make_rpc_call error_status_world "getblockhash" (Some [JInt 1])
            initial_state)
     = Raise (mkExn RequestException
                "500 Server Error: Internal Server Error for url: http://127.0.0.1:8332/"
                (Some (demo_dumps (reply JNull pruned_error))))
  /\ str_contains pruned_message
       "500 Server Error: Internal Server Error for url: http://127.0.0.1:8332/"
     = false
  /\ last_synced_height
       (snd (sync_latest_blocks error_status_world initial_state)) = 0.
Proof. vm_compute. repeat split; reflexivity. Qed.

(** C9, amended.  A call returns a value only when it is the [result]
    member of the reply, and fails otherwise.  When the reply has no HTTP
    error status and its body has a non-null [error] member, the call
    raises an exception whose message is "RPC error: " followed by the
    rendering [str] gives of that member, so that a pass that looks for the
    pruned-data message finds it whenever the rendering holds it.  When the
    reply has an HTTP error status (400 to 599), the call raises the error
    of the status line, whatever the body holds. *)
Theorem rpc_call_result_or_failure (W : World) (method : string)
    (params : option (list json)) (s : state) :
  let request := mkRequest method (payload_params params) in
  let r := fst (_make_rpc_call W method params s) in
  (forall v, r = Ok v ->
     exists status_code reason url text d,
       node W request = Response status_code reason url text
       /\ json_loads W text = Some (JDict d)
       /\ dict_get "result" d = Some v)
  /\ (forall status_code reason url text d err,
        node W request = Response status_code reason url text ->
        json_loads W text = Some (JDict d) ->
        dict_get "error" d = Some err -> err <> JNull ->
        (http_error_status status_code = false ->
         r = Raise (mkExn PlainException ("RPC error: " +:+ py_str W err) None)
         /\ (str_contains pruned_message (py_str W err) = true ->
             forall e, r = Raise e ->
                       str_contains pruned_message (str_exn e) = true))
        /\ (http_error_status status_code = true ->
            r = Raise (mkExn RequestException
                         (z_str status_code
                            +:+ (if (status_code <? 500)%Z
                                 then " Client Error: " else " Server Error: ")
                            +:+ reason +:+ " for url: " +:+ url)
                         (Some text)))).
Proof.
  intros request r. split.
  - intros v Hv.
    destruct (make_rpc_call_ok W method params s v Hv)
      as (st & reason & url & text & d & H1 & _ & H3 & H4 & _).
    exists st, reason, url, text, d. auto.
  - intros st reason url text d err Hn Hl He Hnull. split.
    + intros Hs.
      pose proof (make_rpc_call_error W method params s _ _ _ _ _ _
                    Hn Hs Hl He Hnull) as Hr.
      split; [exact Hr |]. intros Hp e Hre. unfold r in Hre.
      rewrite Hr in Hre. inversion Hre; subst.
      apply str_contains_append. exact Hp.
    + intros Hs. exact (make_rpc_call_http_error W method params s _ _ _ _
                          Hn Hs).
Qed.

Lemma rpc_call_result_or_failure_witness :
  fst (_make_rpc_call pruned_world "getblockhash" (Some [JInt 1])
         initial_state)
  = Raise (mkExn PlainException ("RPC error: " +:+ demo_str pruned_error) None)
  /\ str_contains pruned_message ("RPC error: " +:+ demo_str pruned_error)
     = true.
Proof.
  destruct (rpc_call_result_or_failure pruned_world "getblockhash"
              (Some [JInt 1]) initial_state) as [_ H].
  destruct (H 200 "OK" "http://127.0.0.1:8332/"
              (demo_dumps (reply JNull pruned_error))
              (members (reply JNull pruned_error)) pruned_error)
    as [H200 _]; [reflexivity | reflexivity | reflexivity | discriminate |].
  destruct H200 as [Hr Hp]; [reflexivity |].
  split; [exact Hr |].
  exact (Hp eq_refl _ Hr).
Defined.

Import CreateDatabase.

Lemma files_print_all (f : string -> string) (names : list string)
    (m : machine) :
  files (fold_left (fun acc name => print (f name) acc) names m) = files m.
Proof.
  revert m. induction names as [| n names IH]; intros m; simpl;
    [reflexivity |]. rewrite IH. reflexivity.
Qed.

Lemma stdout_print_all (f : string -> string) (names : list string)
    (m : machine) :
  stdout (fold_left (fun acc name => print (f name) acc) names m)
  = stdout m ++ map f names.
Proof.
  revert m. induction names as [| n names IH]; intros m; simpl.
  - symmetry. apply app_nil_r.
  - rewrite IH. simpl. rewrite <- app_assoc. reflexivity.
Qed.

(** [provision] only adds to what has been printed. *)
Lemma provision_stdout (E : Sqlite) (schema_file db_name : string)
    (m : machine) :
  exists rest, stdout (snd (provision E schema_file db_name m))
               = stdout m ++ rest.
Proof.
  unfold provision, read_file, sqlite_connect.
  destruct (files m !! schema_file) as [[| schema] |];
    cbn [fst snd]; try (exists []; symmetry; apply app_nil_r).
  destruct (files m !! db_name) as [[| content] |];
    cbn [fst snd]; try (exists []; symmetry; apply app_nil_r).
  - destruct (executescript E schema content) as [content' failure].
    destruct failure as [message |]; cbn [fst snd];
      [exists []; symmetry; apply app_nil_r |].
    unfold exists_path. cbn [files print set_files].
    rewrite !lookup_insert_eq. cbn [fst snd].
    rewrite (stdout_print_all (fun name => "- " +:+ name)).
    cbn [stdout print set_files]. rewrite <- !app_assoc. eauto.
  - destruct (executescript E schema "") as [content' failure].
    destruct failure as [message |]; cbn [fst snd];
      [exists []; symmetry; apply app_nil_r |].
    unfold exists_path. cbn [files print set_files].
    rewrite !lookup_insert_eq. cbn [fst snd].
    rewrite (stdout_print_all (fun name => "- " +:+ name)).
    cbn [stdout print set_files]. rewrite <- !app_assoc. eauto.
Qed.


(** After [provision] the database file is absent or holds what the script
    made of an empty database. *)
Lemma provision_fresh (E : Sqlite) (schema_file db_name : string)
    (m : machine) :
  files m !! db_name = None ->
  let m' := snd (provision E schema_file db_name m) in
  files m' !! db_name = None
  \/ exists schema,
       files m !! schema_file = Some (File schema)
       /\ files m' !! db_name
          = Some (File (fst (executescript E schema ""))).
Proof.
  intros Hnone. unfold provision, read_file, sqlite_connect.
  destruct (files m !! schema_file) as [[| schema] |] eqn:Es;
    cbn [fst snd]; auto.
  rewrite Hnone. right. exists schema. split; [reflexivity |].
  destruct (executescript E schema "") as [content' failure].
  destruct failure as [message |]; cbn [fst snd].
  - unfold set_files. cbn [files]. apply lookup_insert_eq.
  - unfold exists_path, print, set_files. cbn [files stdout].
    rewrite !lookup_insert_eq. cbn [fst snd].
    etransitivity;
      [apply (f_equal (fun f : gmap string fsnode => f !! db_name));
       apply (files_print_all (fun name => "- " +:+ name)) |].
    cbn [files]. apply lookup_insert_eq.
Qed.

(** C10. When a file exists at the path of the database, [create_database]
    removes it before anything else: the rest of the function runs on a
    file system without it and the removal is printed.  What the function
    leaves does not depend on what the old file held: afterwards the path
    is absent, or holds the database the schema script makes from an empty
    one. *)
Theorem create_database_removes_existing (E : Sqlite) (schema_file : string)
    (db_name : option string) (m : machine) (old : string) :
  let path := match db_name with Some n => n | None => "bitcoin.db" end in
  files m !! path = Some (File old) ->
  let removed :=
    print ("Removed existing database: " +:+ path)
          (set_files (delete path (files m)) m) in
  let m' := snd (create_database E schema_file db_name m) in
  files removed !! path = None
  /\ fst (create_database E schema_file db_name m) = Ok tt
  /\ (exists rest, stdout m' = stdout removed ++ rest)
  /\ (forall old',
        create_database E schema_file db_name
          (set_files (<[path := File old']> (files m)) m)
        = create_database E schema_file db_name m)
  /\ (files m' !! path = None
      \/ exists schema,
           files removed !! schema_file = Some (File schema)
           /\ files m' !! path
              = Some (File (fst (executescript E schema "")))).
Proof.
  intros path Hold removed m'.
  assert (Hrun : forall m0 old0,
             files m0 !! path = Some (File old0) ->
             create_database E schema_file db_name m0
             = match provision E schema_file path
                       (print ("Removed existing database: " +:+ path)
                              (set_files (delete path (files m0)) m0)) with
               | (Ok tt, m2) => (Ok tt, m2)
               | (Raise e, m2) =>
                   if is_sqlite_error e
                   then (Ok tt, print ("SQLite error: " +:+ str_exn e) m2)
                   else (Ok tt, print ("Error: " +:+ str_exn e) m2)
               end).
  { intros m0 old0 H0. unfold create_database. fold path.
    unfold exists_path, os_remove. rewrite H0. reflexivity. }
  assert (Hnone : files removed !! path = None) by apply lookup_delete_eq.
  split; [exact Hnone |]. unfold m'. rewrite (Hrun m old Hold). fold removed.
  split; [| split; [| split]].
  - destruct (provision E schema_file path removed) as [[[] | e] m2];
      [reflexivity |]. destruct (is_sqlite_error e); reflexivity.
  - destruct (provision_stdout E schema_file path removed) as [rest Hrest].
    destruct (provision E schema_file path removed) as [[[] | e] m2];
      cbn [fst snd] in *; [eauto |].
    destruct (is_sqlite_error e); cbn [snd stdout print]; rewrite Hrest;
      rewrite <- app_assoc; eauto.
  - intros old'. rewrite (Hrun _ old') by apply lookup_insert_eq.
    simpl. rewrite delete_insert_eq. reflexivity.
  - pose proof (provision_fresh E schema_file path removed Hnone) as H.
    simpl in H.
    destruct (provision E schema_file path removed) as [[[] | e] m2];
      simpl in *; [exact H |].
    destruct (is_sqlite_error e); exact H.
Qed.

Lemma create_database_removes_existing_witness :
  files demo_machine !! "bitcoin.db" = Some (File "rows of heights 1 to 3")
  /\ fst (create_database demo_sqlite "lastest_block.sql" None demo_machine)
     = Ok tt
  /\ (files (snd (create_database demo_sqlite "lastest_block.sql" None
                    demo_machine)) !! "bitcoin.db" = None
      \/ exists schema,
           files (snd (create_database demo_sqlite "lastest_block.sql" None
                         demo_machine)) !! "bitcoin.db"
           = Some (File (fst (executescript demo_sqlite schema "")))).
Proof.
  split; [vm_compute; reflexivity |].
  destruct (create_database_removes_existing demo_sqlite "lastest_block.sql"
              None demo_machine "rows of heights 1 to 3")
    as (_ & H1 & _ & _ & H2); [vm_compute; reflexivity |].
  split; [exact H1 |].
  destruct H2 as [H2 | (schema & _ & H2)]; [left; exact H2 |].
  right. exists schema. exact H2.
Defined.

(** * Further properties of the synchronizer *)

(** X1. [_get_prune_height] never fails.  It returns the [pruneheight]
    member of the reply to [getblockchaininfo] when the reply is an object
    with such a member, and 0 in every other case: an object without the
    member, a reply that is not an object, a failed call. *)
Theorem prune_height_or_zero (W : World) (s : state) :
  exists j,
    fst (_get_prune_height W s) = Ok j
    /\ (forall d v,
          fst (_make_rpc_call W "getblockchaininfo" None s) = Ok (JDict d) ->
          dict_get "pruneheight" d = Some v -> j = v)
    /\ (forall d,
          fst (_make_rpc_call W "getblockchaininfo" None s) = Ok (JDict d) ->
          dict_get "pruneheight" d = None -> j = JInt 0)
    /\ (forall v,
          fst (_make_rpc_call W "getblockchaininfo" None s) = Ok v ->
          (forall d, v <> JDict d) -> j = JInt 0)
    /\ (forall e,
          fst (_make_rpc_call W "getblockchaininfo" None s) = Raise e ->
          j = JInt 0).
Proof.
  eexists. split; [apply get_prune_height_value |].
  repeat split.
  - intros d v -> ->. reflexivity.
  - intros d -> ->. reflexivity.
  - intros v -> Hv. destruct v; try reflexivity. destruct (Hv d eq_refl).
  - intros e ->. reflexivity.
Qed.

Lemma prune_height_or_zero_witness :
  fst (_get_prune_height pruning_world initial_state) = Ok (JInt 2)
  /\ fst (_get_prune_height offline_world initial_state) = Ok (JInt 0).
Proof.
  destruct (prune_height_or_zero pruning_world initial_state)
    as (j & Hj & H1 & _).
  destruct (prune_height_or_zero offline_world initial_state)
    as (j' & Hj' & _ & _ & _ & H4).
  split.
  - rewrite Hj. f_equal.
    apply (H1 [("chain", JStr "main"); ("pruneheight", JInt 2)]);
      vm_compute; reflexivity.
  - rewrite Hj'. f_equal.
    apply (H4 (mkExn RequestException "Connection refused" None)).
    vm_compute. reflexivity.
Defined.

(** X2. A call of the node sends exactly one request, whatever the
    outcome: nothing is retried.  It leaves the store, committed and
    pending, and the tracked height as they are; and when it fails, the
    latest record of the log is an error. *)
Theorem rpc_call_sends_one_request (W : World) (method : string)
    (params : option (list json)) (s : state) :
  let s' := snd (_make_rpc_call W method params s) in
  calls s' = calls s ++ [mkRequest method (payload_params params)]
  /\ committed s' = committed s
  /\ pending s' = pending s
  /\ last_synced_height s' = last_synced_height s
  /\ (forall e, fst (_make_rpc_call W method params s) = Raise e ->
                last_level s' = Some ERROR).
Proof.
  destruct (_make_rpc_call W method params s) as [r s'] eqn:E. simpl.
  destruct (make_rpc_call_frame W method params s s r s' eq_refl E)
    as [(H1 & H2 & _ & H4) Hk].
  repeat split; auto.
  intros e ->.
  exact (make_rpc_call_failure_logged W method params s _ s' I E).
Qed.

Lemma rpc_call_sends_one_request_witness :
  fst (_make_rpc_call offline_world "getblockcount" None initial_state)
  = Raise (mkExn RequestException "Connection refused" None)
  /\ calls (snd (_make_rpc_call offline_world "getblockcount" None
                   initial_state)) = [count_request]
  /\ last_level (snd (_make_rpc_call offline_world "getblockcount" None
                        initial_state)) = Some ERROR.
Proof.
  split; [vm_compute; reflexivity |].
  destruct (rpc_call_sends_one_request offline_world "getblockcount" None
              initial_state) as (H1 & _ & _ & _ & H5).
  split; [exact H1 |]. eapply H5. vm_compute. reflexivity.
Defined.

(** X3. [_store_block] makes no request and does not change the tracked
    height.  Unless it returns [True], it has stored nothing: the committed
    rows are those of before the call.  A database error never leaves it:
    the exceptions it raises are not [sqlite3.Error]s. *)
Theorem store_block_failure_leaves_store (W : World) (block_data : json)
    (s : state) :
  let s' := snd (_store_block W block_data s) in
  calls s' = calls s
  /\ last_synced_height s' = last_synced_height s
  /\ (fst (_store_block W block_data s) <> Ok true ->
      committed s' = committed s)
  /\ (forall e, fst (_store_block W block_data s) = Raise e ->
                is_sqlite_error e = false).
Proof.
  destruct (_store_block W block_data s) as [r s'] eqn:E. simpl.
  destruct (store_block_spec W block_data s s r s' eq_refl E)
    as (H1 & H2 & _ & H4).
  repeat split; auto.
  - intros Hr. destruct r as [[|] |]; auto. congruence.
  - intros e ->.
    assert (Hf : fst (_store_block W block_data s) = Raise e)
      by (rewrite E; reflexivity).
    unfold _store_block in Hf.
    eapply try_except_sqlite_caught; [| exact Hf].
    intros e' s1. eexists. eexists. reflexivity.
Qed.

Lemma store_block_failure_leaves_store_witness :
  fst (_store_block healthy_world (JDict [("hash", JStr "hash1")])
         initial_state) = Raise (key_error "height")
  /\ committed (snd (_store_block healthy_world
                       (JDict [("hash", JStr "hash1")]) initial_state))
     = empty_store.
Proof.
  split; [vm_compute; reflexivity |].
  destruct (store_block_failure_leaves_store healthy_world
              (JDict [("hash", JStr "hash1")]) initial_state)
    as (_ & _ & H & _).
  apply H. vm_compute. discriminate.
Defined.

(** X4. A block payload that lacks one of the ten fields the INSERT reads
    with a subscript is not stored: [_store_block] raises the [KeyError] of
    a missing field (or returns [False] when the database cannot be
    opened), and the committed rows are those of before. *)
Theorem store_block_missing_field (W : World) (d : list (string * json))
    (k : string) (s : state) :
  In k required_block_fields -> dict_get k d = None ->
  committed (snd (_store_block W (JDict d) s)) = committed s
  /\ (fst (_store_block W (JDict d) s) = Ok false
      \/ exists k', In k' required_block_fields
                    /\ dict_get k' d = None
                    /\ fst (_store_block W (JDict d) s)
                       = Raise (key_error k')).
Proof.
  intros Hin Hk.
  destruct (block_params_missing d k Hin Hk) as (k' & Hin' & Hk' & Hp).
  destruct (store_block_params_raise W (JDict d) (key_error k') s Hp eq_refl)
    as [Hr | Hr].
  - split; [| right; eauto].
    destruct (_store_block W (JDict d) s) as [r s'] eqn:E.
    destruct (store_block_spec W (JDict d) s s r s' eq_refl E)
      as (_ & _ & _ & H4).
    simpl in *. subst r. exact H4.
  - split; [| left; exact Hr].
    destruct (_store_block W (JDict d) s) as [r s'] eqn:E.
    destruct (store_block_spec W (JDict d) s s r s' eq_refl E)
      as (_ & _ & _ & H4).
    simpl in *. subst r. exact H4.
Qed.

Lemma store_block_missing_field_witness :
  dict_get "height" [("hash", JStr "hash1")] = None
  /\ committed (snd (_store_block healthy_world
                       (JDict [("hash", JStr "hash1")]) initial_state))
     = committed initial_state.
Proof.
  split; [reflexivity |].
  apply (store_block_missing_field healthy_world [("hash", JStr "hash1")]
           "height" initial_state); [simpl; tauto | reflexivity].
Defined.

(** X5. In a pass that learns the chain height [c] and the prune height
    [p], every height the node is asked for is above the tracked height of
    the beginning of the pass, at or above [p] and at or below [c], and no
    height is asked for twice; the tracked height at the end is at most the
    larger of [c] and the tracked height of the beginning. *)
Theorem fetched_heights_within_bounds (W : World) (s : state) (c p : Z) :
  fst (_make_rpc_call W "getblockcount" None s) = Ok (JInt c) ->
  fst (_get_prune_height W s) = Ok (JInt p) ->
  let s' := snd (sync_latest_blocks W s) in
  exists hs,
    heights_fetched (calls s') = heights_fetched (calls s) ++ hs
    /\ NoDup hs
    /\ (forall h, In h hs -> last_synced_height s < h /\ p <= h /\ h <= c)
    /\ last_synced_height s' <= Z.max (last_synced_height s) c.
Proof.
  intros Hc Hp s'.
  destruct (sync_latest_blocks_spec W s c p Hc Hp) as (s1 & E & _ & H).
  unfold s'. rewrite E. simpl.
  set (start := Z.max (last_synced_height s + 1) p) in H.
  destruct (c <=? start)%Z eqn:Hcmp.
  - destruct H as (Hk & _ & Hl). exists [].
    rewrite Hk, heights_fetched_app. simpl.
    split; [reflexivity |]. split; [constructor |].
    split; [intros h [] | lia].
  - apply Z.leb_gt in Hcmp. destruct H as (n & Hn & Hh & Hcase).
    exists (py_range start (start + n)).
    split; [exact Hh |]. split; [apply py_range_NoDup |]. split.
    + intros h Hin. apply list_elem_of_In in Hin.
      apply list_elem_of_lookup in Hin. destruct Hin as [i Hi].
      apply py_range_lookup in Hi. lia.
    + destruct Hcase as [[_ ->] | (Hlt & _ & _)]; lia.
Qed.

Lemma fetched_heights_within_bounds_witness :
  fst (_make_rpc_call pruning_world "getblockcount" None initial_state)
  = Ok (JInt 3)
  /\ fst (_get_prune_height pruning_world initial_state) = Ok (JInt 2)
  /\ exists hs,
       heights_fetched
         (calls (snd (sync_latest_blocks pruning_world initial_state))) = hs
       /\ forall h, In h hs -> 2 <= h /\ h <= 3.
Proof.
  split; [vm_compute; reflexivity |]. split; [vm_compute; reflexivity |].
  destruct (fetched_heights_within_bounds pruning_world initial_state 3 2)
    as (hs & Hh & _ & Hb & _);
    [vm_compute; reflexivity | vm_compute; reflexivity |].
  exists hs. split; [exact Hh |]. intros h Hin.
  destruct (Hb h Hin) as (_ & H2 & H3). split; assumption.
Defined.

(** X6. When the chain is at most one block ahead of the tracked height,
    the pass reports the database up to date: it makes its two probing
    requests and nothing else, and the store and the tracked height are
    unchanged.  In particular the block right above the tracked height is
    not fetched while it is the newest of the chain. *)
Theorem chain_one_ahead_not_synced (W : World) (s : state) (c p : Z) :
  fst (_make_rpc_call W "getblockcount" None s) = Ok (JInt c) ->
  fst (_get_prune_height W s) = Ok (JInt p) ->
  c <= last_synced_height s + 1 ->
  let s' := snd (sync_latest_blocks W s) in
  calls s' = calls s ++ [count_request; info_request]
  /\ committed s' = committed s
  /\ last_synced_height s' = last_synced_height s.
Proof.
  intros Hc Hp Hle s'.
  destruct (sync_latest_blocks_spec W s c p Hc Hp) as (s1 & E & _ & H).
  unfold s'. rewrite E. simpl.
  replace (c <=? Z.max (last_synced_height s + 1) p)%Z with true in H
    by (symmetry; apply Z.leb_le; lia).
  exact H.
Qed.

Lemma chain_one_ahead_not_synced_witness :
  let s2 := set_last_synced_height 2 initial_state in
  fst (_make_rpc_call healthy_world "getblockcount" None s2) = Ok (JInt 3)
  /\ calls (snd (sync_latest_blocks healthy_world s2))
     = [count_request; info_request]
  /\ committed (snd (sync_latest_blocks healthy_world s2)) = empty_store.
Proof.
  intros s2. split; [vm_compute; reflexivity |].
  destruct (chain_one_ahead_not_synced healthy_world s2 3 0)
    as (H1 & H2 & _);
    [vm_compute; reflexivity | vm_compute; reflexivity
     | vm_compute; discriminate |].
  split; [exact H1 | exact H2].
Defined.

(** X7. A pass never lowers the tracked height, whatever the node and the
    database do. *)
Theorem tracked_height_never_decreases (W : World) (s : state) :
  last_synced_height s
  <= last_synced_height (snd (sync_latest_blocks W s)).
Proof.
  destruct (sync_latest_blocks W s) as [r s'] eqn:E.
  exact (sync_latest_blocks_monotone W (last_synced_height s) s r s'
           (Z.le_refl _) E).
Qed.

(** X8. A pass only adds rows: whatever the node and the database do, each
    of the four tables holds, after the pass, the rows it held before with
    their rowids and in their order, followed by the rows of the pass.  No
    committed row is deleted or changed. *)
Theorem sync_only_adds_rows (W : World) (s : state) :
  extends (committed s) (committed (snd (sync_latest_blocks W s))).
Proof.
  destruct (sync_latest_blocks W s) as [r s'] eqn:E.
  exact (sync_latest_blocks_extends W (committed s) s r s'
           (extends_refl _) E).
Qed.

(** X9. When the request for the chain height fails, the pass ends there:
    it has sent that one request, the store and the tracked height are
    unchanged, the error is logged and the pass returns normally. *)
Theorem pass_without_chain_height (W : World) (s : state) (e : exn) :
  fst (_make_rpc_call W "getblockcount" None s) = Raise e ->
  let s' := snd (sync_latest_blocks W s) in
  fst (sync_latest_blocks W s) = Ok tt
  /\ calls s' = calls s ++ [count_request]
  /\ committed s' = committed s
  /\ last_synced_height s' = last_synced_height s
  /\ last_level s' = Some ERROR.
Proof.
  intros He s'.
  destruct (sync_latest_blocks_count_fails W s e He)
    as (Hk & (Hc & _ & _ & Hl) & Hlog).
  split; [apply sync_latest_blocks_returns |]. auto.
Qed.

Lemma pass_without_chain_height_witness :
  fst (_make_rpc_call offline_world "getblockcount" None initial_state)
  = Raise (mkExn RequestException "Connection refused" None)
  /\ calls (snd (sync_latest_blocks offline_world initial_state))
     = [count_request]
  /\ last_level (snd (sync_latest_blocks offline_world initial_state))
     = Some ERROR.
Proof.
  split; [vm_compute; reflexivity |].
  destruct (pass_without_chain_height offline_world initial_state
              (mkExn RequestException "Connection refused" None))
    as (_ & H1 & _ & _ & H2); [vm_compute; reflexivity |].
  split; [exact H1 | exact H2].
Defined.



(** X11. Passes can be repeated.  After a pass that did not end on a
    logged error, a second pass of the same object, with the node reporting
    the same chain height and prune height, fetches nothing and leaves the
    store and the tracked height as the first pass left them. *)
Theorem second_pass_is_idle (W : World) (s : state) (c p : Z) :
  fst (_make_rpc_call W "getblockcount" None s) = Ok (JInt c) ->
  fst (_get_prune_height W s) = Ok (JInt p) ->
  let s1 := snd (sync_latest_blocks W s) in
  let s2 := snd (sync_latest_blocks W s1) in
  last_level s1 <> Some ERROR ->
  heights_fetched (calls s2) = heights_fetched (calls s1)
  /\ committed s2 = committed s1
  /\ last_synced_height s2 = last_synced_height s1.
Proof.
  intros Hc Hp s1 s2 Hlog.
  assert (Hc1 : fst (_make_rpc_call W "getblockcount" None s1) = Ok (JInt c)).
  { rewrite <- Hc. apply oblivious_result, make_rpc_call_oblivious. }
  assert (Hp1 : fst (_get_prune_height W s1) = Ok (JInt p)).
  { rewrite <- Hp. apply oblivious_result, get_prune_height_oblivious. }
  assert (Hle : c <= Z.max (last_synced_height s1 + 1) p).
  { destruct (sync_latest_blocks_spec W s c p Hc Hp) as (t & E & _ & H).
    unfold s1 in *. rewrite E in *. simpl in *.
    destruct (c <=? Z.max (last_synced_height s + 1) p)%Z eqn:Hcmp.
    - apply Z.leb_le in Hcmp. destruct H as (_ & _ & ->). exact Hcmp.
    - destruct H as (n & _ & _ & [[_ ->] | (_ & _ & He)]); [lia |].
      contradiction. }
  destruct (sync_latest_blocks_spec W s1 c p Hc1 Hp1) as (t & E & _ & H).
  unfold s2. rewrite E. simpl.
  replace (c <=? Z.max (last_synced_height s1 + 1) p)%Z with true in H
    by (symmetry; apply Z.leb_le; lia).
  destruct H as (Hk & Hd & Hl). rewrite Hk, heights_fetched_app. simpl.
  rewrite app_nil_r. auto.
Qed.

Lemma second_pass_is_idle_witness :
  let s1 := snd (sync_latest_blocks healthy_world initial_state) in
  last_level s1 = Some INFO
  /\ last_synced_height s1 = 3
  /\ committed (snd (sync_latest_blocks healthy_world s1)) = committed s1.
Proof.
  intros s1. split; [vm_compute; reflexivity |].
  split; [vm_compute; reflexivity |].
  destruct (second_pass_is_idle healthy_world initial_state 3 0)
    as (_ & H & _);
    [vm_compute; reflexivity | vm_compute; reflexivity
     | vm_compute; discriminate |].
  exact H.
Defined.

(** X12. The retry of a failed height.  When a pass over the heights
    [start .. c] does not reach [c], it stopped on an error at the last
    height [h] it asked for.  A next pass of the same object, with the node
    reporting the same chain height and prune height, asks for [h] first if
    [h < c]; if the pass failed at [c] itself, the next pass takes the
    database for up to date and does not ask for [c] again. *)
Theorem failed_height_is_retried (W : World) (s : state) (c p : Z) :
  fst (_make_rpc_call W "getblockcount" None s) = Ok (JInt c) ->
  fst (_get_prune_height W s) = Ok (JInt p) ->
  let s1 := snd (sync_latest_blocks W s) in
  let s2 := snd (sync_latest_blocks W s1) in
  Z.max (last_synced_height s + 1) p < c ->
  last_synced_height s1 <> c ->
  exists hs h,
    heights_fetched (calls s1) = heights_fetched (calls s) ++ hs
    /\ last hs = Some h
    /\ last_synced_height s1 < h
    /\ last_level s1 = Some ERROR
    /\ (h < c ->
        exists later,
          heights_fetched (calls s2)
          = heights_fetched (calls s1) ++ h :: later)
    /\ (h = c -> heights_fetched (calls s2) = heights_fetched (calls s1)).
Proof.
  intros Hc Hp s1 s2 Hlt Hne.
  assert (Hc1 : fst (_make_rpc_call W "getblockcount" None s1) = Ok (JInt c)).
  { rewrite <- Hc. apply oblivious_result, make_rpc_call_oblivious. }
  assert (Hp1 : fst (_get_prune_height W s1) = Ok (JInt p)).
  { rewrite <- Hp. apply oblivious_result, get_prune_height_oblivious. }
  destruct (sync_latest_blocks_spec W s1 c p Hc1 Hp1) as (t2 & E2 & _ & H2).
  destruct (sync_latest_blocks_spec W s c p Hc Hp) as (t & E & _ & H).
  unfold s2. rewrite E2. clear E2. unfold s1 in *. rewrite E in *.
  simpl in *. clear E.
  set (start := Z.max (last_synced_height s + 1) p) in *.
  replace (c <=? start)%Z with false in H by (symmetry; apply Z.leb_gt; lia).
  destruct H as (n & Hn & Hh & [[_ Hl] | (Hl & Hm & He)]); [contradiction |].
  exists (py_range start (start + n)), (start + n - 1).
  split; [exact Hh |].
  split; [rewrite py_range_last by lia; f_equal; lia |].
  split; [exact Hl |]. split; [exact He |].
  rewrite Hm in H2. split.
  - intros Hhc.
    replace (c <=? start + n - 1)%Z with false in H2
      by (symmetry; apply Z.leb_gt; lia).
    destruct H2 as (n2 & Hn2 & Hh2 & _).
    rewrite py_range_cons in Hh2 by lia. eauto.
  - intros Hhc.
    replace (c <=? start + n - 1)%Z with true in H2
      by (symmetry; apply Z.leb_le; lia).
    destruct H2 as (-> & _). rewrite heights_fetched_app. simpl.
    apply app_nil_r.
Qed.

Lemma failed_height_is_retried_witness :
  let s1 := snd (sync_latest_blocks unreachable_world initial_state) in
  last_synced_height s1 = 0
  /\ exists hs h,
       heights_fetched (calls s1) = hs /\ last hs = Some h
       /\ (h < 3 ->
           exists later,
             heights_fetched
               (calls (snd (sync_latest_blocks unreachable_world s1)))
             = heights_fetched (calls s1) ++ h :: later).
Proof.
  intros s1. split; [vm_compute; reflexivity |].
  destruct (failed_height_is_retried unreachable_world initial_state 3 0)
    as (hs & h & H1 & H2 & _ & _ & H5 & _);
    [vm_compute; reflexivity | vm_compute; reflexivity
     | vm_compute; reflexivity | vm_compute; discriminate |].
  exists hs, h. split; [exact H1 |]. split; [exact H2 | exact H5].
Defined.

(** X13. The address of an output.  When the script of an output lists
    addresses, the row gets the first of them and the others are dropped;
    when the list is there but empty, building the row fails with an
    [IndexError], which is not a database error. *)
Theorem first_address_stored (W : World) (d spk : list (string * json))
    (n value : json) :
  dict_get "n" d = Some n -> dict_get "value" d = Some value ->
  dict_get "scriptPubKey" d = Some (JDict spk) ->
  (forall a others params vs tx_id,
      dict_get "addresses" spk = Some (JList (JStr a :: others)) ->
      output_params W (JDict d) = Ok params -> bind_params params = Ok vs ->
      o_address (output_row_of tx_id vs) = SqlText a)
  /\ (dict_get "addresses" spk = Some (JList []) ->
      exists e, output_params W (JDict d) = Raise e
                /\ kind e = IndexError /\ is_sqlite_error e = false).
Proof.
  intros Hn Hv Hs. split.
  - intros a others params vs tx_id Ha Hp Hb.
    unfold output_params in Hp. simpl in Hp. rewrite Hn, Hv, Hs in Hp.
    unfold output_address, py_in, dict_has, py_get in Hp.
    rewrite Ha in Hp. simpl in Hp. inversion Hp; subst. simpl in Hb.
    destruct (bind_param n); [| discriminate].
    destruct (bind_param value); [| discriminate].
    inversion Hb; subst. reflexivity.
  - intros Ha. unfold output_params. simpl. rewrite Hn, Hv, Hs.
    unfold output_address, py_in, dict_has, py_get. rewrite Ha. simpl.
    eexists. split; [reflexivity |]. split; reflexivity.
Qed.

Lemma first_address_stored_witness :
  let spk := [("addresses", JList [JStr "1A1zP1"; JStr "1BvBMS"])] in
  let d := [("value", JInt 50); ("n", JInt 0); ("scriptPubKey", JDict spk)] in
  exists params vs,
    output_params healthy_world (JDict d) = Ok params
    /\ bind_params params = Ok vs
    /\ o_address (output_row_of 1 vs) = SqlText "1A1zP1".
Proof.
  intros spk d.
  destruct (first_address_stored healthy_world d spk (JInt 0) (JInt 50))
    as [H _]; [reflexivity | reflexivity | reflexivity |].
  eexists. eexists. split; [reflexivity |]. split; [reflexivity |].
  exact (H "1A1zP1" [JStr "1BvBMS"] _ _ 1 eq_refl eq_refl eq_refl).
Defined.

(** * Further properties of [create_database] *)

Lemma provision_files (E : Sqlite) (schema_file path : string) (m : machine) :
  files (snd (provision E schema_file path m))
  = provisioned_files E schema_file path (files m).
Proof.
  unfold provision, provisioned_files, read_file, sqlite_connect.
  destruct (files m !! schema_file) as [[| schema] |];
    cbn [fst snd]; try reflexivity.
  destruct (files m !! path) as [[| content] |] eqn:Ep;
    cbn [fst snd]; try reflexivity.
  - destruct (executescript E schema content) as [content' failure].
    destruct failure as [message |]; cbn [fst snd];
      [reflexivity |].
    unfold exists_path, print, set_files. cbn [files stdout].
    rewrite !lookup_insert_eq. cbn [fst snd].
    etransitivity;
      [apply (files_print_all (fun name => "- " +:+ name)) | reflexivity].
  - destruct (executescript E schema "") as [content' failure].
    destruct failure as [message |]; cbn [fst snd].
    + unfold set_files. cbn [files]. apply insert_insert_eq.
    + unfold exists_path, print, set_files. cbn [files stdout].
      rewrite !lookup_insert_eq. cbn [fst snd].
      etransitivity;
        [apply (files_print_all (fun name => "- " +:+ name)) |].
      cbn [files]. apply insert_insert_eq.
Qed.

Lemma provision_returns_or_raises (E : Sqlite) (schema_file path : string)
    (m : machine) :
  fst (provision E schema_file path m) = Ok tt
  \/ exists e, fst (provision E schema_file path m) = Raise e.
Proof.
  destruct (provision E schema_file path m) as [[[] | e] m']; eauto.
Qed.

Lemma create_database_files (E : Sqlite) (schema_file : string)
    (db_name : option string) (m : machine) :
  let path := match db_name with Some n => n | None => "bitcoin.db" end in
  files (snd (create_database E schema_file db_name m))
  = created_files E schema_file path (files m).
Proof.
  intros path. unfold create_database, created_files. fold path.
  unfold exists_path, os_remove.
  destruct (files m !! path) as [[| old] |] eqn:Ep; cbn [fst snd].
  - reflexivity.
  - pose proof (provision_files E schema_file path
                  (print ("Removed existing database: " +:+ path)
                         (set_files (delete path (files m)) m))) as H.
    destruct (provision E schema_file path _) as [[[] | e] m2];
      cbn [fst snd] in *; [exact H |].
    destruct (is_sqlite_error e); exact H.
  - pose proof (provision_files E schema_file path m) as H.
    rewrite (delete_id _ _ Ep).
    destruct (provision E schema_file path m) as [[[] | e] m2];
      cbn [fst snd] in *; [exact H |].
    destruct (is_sqlite_error e); exact H.
Qed.

Lemma create_database_returns (E : Sqlite) (schema_file : string)
    (db_name : option string) (m : machine) :
  let path := match db_name with Some n => n | None => "bitcoin.db" end in
  exists_path path m = false \/ fst (os_remove path m) = Ok tt ->
  fst (create_database E schema_file db_name m) = Ok tt.
Proof.
  intros path H. unfold create_database. fold path.
  destruct (exists_path path m) eqn:Ex.
  - destruct H as [H | H]; [discriminate |].
    destruct (os_remove path m) as [[[] | e] m1]; [| discriminate].
    destruct (provision E schema_file path _) as [[[] | e] m2];
      [reflexivity |]. destruct (is_sqlite_error e); reflexivity.
  - destruct (provision E schema_file path m) as [[[] | e] m2];
      [reflexivity |]. destruct (is_sqlite_error e); reflexivity.
Qed.

(** X14. An exception leaves [create_database] only from [os.remove], which
    is called before the [try] block: if [create_database] raises, the
    path of the database exists and [os.remove] raised this exception on
    it, and nothing else was done.  When the path does not exist, or
    [os.remove] succeeds, whatever goes wrong inside the [try] block (no
    schema file, an SQLite error) is printed and the function returns
    normally. *)
Theorem create_database_raises_only_from_removal (E : Sqlite)
    (schema_file : string) (db_name : option string) (m : machine) :
  let path := match db_name with Some n => n | None => "bitcoin.db" end in
  (forall e,
      fst (create_database E schema_file db_name m) = Raise e ->
      exists_path path m = true
      /\ os_remove path m
         = (Raise e, snd (create_database E schema_file db_name m)))
  /\ (exists_path path m = false \/ fst (os_remove path m) = Ok tt ->
      fst (create_database E schema_file db_name m) = Ok tt).
Proof.
  intros path. split; [| apply create_database_returns].
  intros e. unfold create_database. fold path.
  destruct (exists_path path m) eqn:Ex.
  - destruct (os_remove path m) as [[[] | e'] m1].
    + destruct (provision E schema_file path _) as [[[] | e'] m2];
        [discriminate |]. destruct (is_sqlite_error e'); discriminate.
    + cbn [fst snd]. intros H. inversion H. auto.
  - destruct (provision E schema_file path m) as [[[] | e'] m2];
      [discriminate |]. destruct (is_sqlite_error e'); discriminate.
Qed.

Lemma create_database_raises_only_from_removal_witness :
  (exists e,
      fst (create_database demo_sqlite "lastest_block.sql" None
             demo_directory_machine) = Raise e
      /\ os_remove "bitcoin.db" demo_directory_machine
         = (Raise e, snd (create_database demo_sqlite "lastest_block.sql"
                            None demo_directory_machine)))
  /\ fst (os_remove "bitcoin.db" demo_machine) = Ok tt
  /\ fst (create_database demo_sqlite "lastest_block.sql" None demo_machine)
     = Ok tt.
Proof.
  split.
  - destruct (create_database_raises_only_from_removal demo_sqlite
                "lastest_block.sql" None demo_directory_machine) as [H _].
    eexists. split; [vm_compute; reflexivity |].
    apply H. vm_compute. reflexivity.
  - split; [vm_compute; reflexivity |].
    destruct (create_database_raises_only_from_removal demo_sqlite
                "lastest_block.sql" None demo_machine) as [_ H].
    apply H. right. vm_compute. reflexivity.
Defined.

(** X15. When the schema file cannot be read (it does not exist, it is a
    directory, or it is the database file itself, which has just been
    removed), [create_database] still returns normally, but it leaves no
    database: an existing database file has been removed and none has been
    created. *)
Theorem unreadable_schema_leaves_no_database (E : Sqlite)
    (schema_file : string) (db_name : option string) (m : machine) :
  let path := match db_name with Some n => n | None => "bitcoin.db" end in
  let m' := snd (create_database E schema_file db_name m) in
  files m !! path <> Some Directory ->
  (schema_file = path \/ files m !! schema_file = None
   \/ files m !! schema_file = Some Directory) ->
  fst (create_database E schema_file db_name m) = Ok tt
  /\ files m' = delete path (files m)
  /\ files m' !! path = None.
Proof.
  intros path m' Hd Hs.
  split.
  { apply create_database_returns. fold path. unfold exists_path, os_remove.
    destruct (files m !! path) as [[| old] |]; [congruence | right | left];
      reflexivity. }
  assert (Hf : files m' = delete path (files m)).
  { unfold m'. rewrite create_database_files. fold path.
    unfold created_files, provisioned_files.
    assert (Hread : forall schema,
               delete path (files m) !! schema_file <> Some (File schema)).
    { intros schema. destruct Hs as [-> | [Hs | Hs]].
      - rewrite lookup_delete_eq. discriminate.
      - destruct (decide (path = schema_file)) as [<- | Hne].
        + rewrite lookup_delete_eq. discriminate.
        + rewrite lookup_delete_ne by exact Hne. rewrite Hs. discriminate.
      - destruct (decide (path = schema_file)) as [<- | Hne].
        + rewrite lookup_delete_eq. discriminate.
        + rewrite lookup_delete_ne by exact Hne. rewrite Hs. discriminate. }
    destruct (files m !! path) as [[| old] |] eqn:Ep; [congruence | |].
    - destruct (delete path (files m) !! schema_file) as [[| schema] |] eqn:Es;
        try reflexivity. destruct (Hread schema eq_refl).
    - destruct (delete path (files m) !! schema_file) as [[| schema] |] eqn:Es;
        try reflexivity. destruct (Hread schema eq_refl). }
  split; [exact Hf |]. rewrite Hf. apply lookup_delete_eq.
Qed.

Lemma unreadable_schema_leaves_no_database_witness :
  files demo_machine_without_schema !! "bitcoin.db"
  = Some (File "rows of heights 1 to 3")
  /\ fst (create_database demo_sqlite "lastest_block.sql" None
            demo_machine_without_schema) = Ok tt
  /\ files (snd (create_database demo_sqlite "lastest_block.sql" None
                   demo_machine_without_schema)) !! "bitcoin.db" = None.
Proof.
  split; [vm_compute; reflexivity |].
  destruct (unreadable_schema_leaves_no_database demo_sqlite
              "lastest_block.sql" None demo_machine_without_schema)
    as (H1 & _ & H3);
    [vm_compute; discriminate | right; left; vm_compute; reflexivity |].
  split; [exact H1 | exact H3].
Defined.

Lemma created_files_fixed (E : Sqlite) (schema_file path : string)
    (f0 : gmap string fsnode) :
  f0 !! path = None ->
  created_files E schema_file path (provisioned_files E schema_file path f0)
  = provisioned_files E schema_file path f0.
Proof.
  intros H0. unfold provisioned_files. rewrite H0.
  destruct (f0 !! schema_file) as [[| schema] |] eqn:Es.
  - unfold created_files. rewrite H0, (delete_id _ _ H0).
    unfold provisioned_files. rewrite Es. reflexivity.
  - unfold created_files. rewrite lookup_insert_eq, delete_insert_eq.
    rewrite (delete_id _ _ H0). unfold provisioned_files.
    rewrite Es, H0. reflexivity.
  - unfold created_files. rewrite H0, (delete_id _ _ H0).
    unfold provisioned_files. rewrite Es. reflexivity.
Qed.

(** X17. Provisioning twice is provisioning once, as far as the files go:
    a second run of [create_database] with the same arguments leaves the
    files the first run left. *)
Theorem create_database_twice (E : Sqlite) (schema_file : string)
    (db_name : option string) (m : machine) :
  files (snd (create_database E schema_file db_name
                (snd (create_database E schema_file db_name m))))
  = files (snd (create_database E schema_file db_name m)).
Proof.
  rewrite !create_database_files.
  set (path := match db_name with Some n => n | None => "bitcoin.db" end).
  generalize (files m). intros f.
  destruct (f !! path) as [[| old] |] eqn:Ep.
  - unfold created_files at 2. rewrite Ep.
    unfold created_files. rewrite Ep. reflexivity.
  - assert (HG : created_files E schema_file path f
                 = provisioned_files E schema_file path (delete path f))
      by (unfold created_files; rewrite Ep; reflexivity).
    rewrite HG. apply created_files_fixed, lookup_delete_eq.
  - assert (HG : created_files E schema_file path f
                 = provisioned_files E schema_file path (delete path f))
      by (unfold created_files; rewrite Ep; reflexivity).
    rewrite HG. apply created_files_fixed, lookup_delete_eq.
Qed.

(** * Further properties of the writer and of repeated passes *)

(** X18. [_store_transaction] works inside the transaction of its caller:
    it commits nothing, makes no request and leaves the tracked height
    alone, whether it returns [True], returns [False] or raises.  A
    database error never leaves it: it is logged and turned into [False],
    and the exceptions it raises are not [sqlite3.Error]s. *)
Theorem store_transaction_commits_nothing (W : World) (tx_data : json)
    (block_id : Z) (s : state) :
  let s' := snd (_store_transaction W tx_data block_id s) in
  committed s' = committed s
  /\ calls s' = calls s
  /\ last_synced_height s' = last_synced_height s
  /\ (forall e, fst (_store_transaction W tx_data block_id s) = Raise e ->
                is_sqlite_error e = false).
Proof.
  destruct (_store_transaction W tx_data block_id s) as [r s'] eqn:E.
  cbn [snd].
  destruct (store_transaction_frame W tx_data block_id (committed s)
              (calls s) (last_synced_height s) s r s') as (H1 & H2 & H3);
    auto.
  repeat split; auto.
  intros e Hr.
  assert (Hf : fst (_store_transaction W tx_data block_id s) = Raise e)
    by (rewrite E; exact Hr).
  unfold _store_transaction in Hf.
  eapply try_except_sqlite_caught; [| exact Hf].
  intros e' s1. eexists. eexists. reflexivity.
Qed.

Lemma store_transaction_commits_nothing_witness :
  fst (_store_transaction healthy_world (JDict [("txid", JStr "t1")]) 1
         initial_state) = Raise (key_error "version")
  /\ is_sqlite_error (key_error "version") = false.
Proof.
  split; [vm_compute; reflexivity |].
  destruct (store_transaction_commits_nothing healthy_world
              (JDict [("txid", JStr "t1")]) 1 initial_state)
    as (_ & _ & _ & H).
  apply H. vm_compute. reflexivity.
Defined.

(** X19. Over any number of passes of one object, whatever the node and
    the database do at each of them: the tracked height never goes down,
    the store only gets more rows (no committed row is deleted or
    changed), and if every row had its owner before the first pass, every
    row has its owner after the last. *)
Theorem passes_keep_the_store_growing (worlds : list World) (s : state) :
  last_synced_height s <= last_synced_height (run_passes worlds s)
  /\ extends (committed s) (committed (run_passes worlds s))
  /\ (ref_ok (committed s) = true ->
      ref_ok (committed (run_passes worlds s)) = true).
Proof.
  revert s. induction worlds as [| W later IH]; intros s; simpl.
  - split; [lia |]. split; [apply extends_refl | auto].
  - destruct (sync_latest_blocks W s) as [r s1] eqn:E. simpl.
    destruct (IH s1) as (H1 & H2 & H3).
    pose proof (sync_latest_blocks_monotone W (last_synced_height s) s r s1
                  (Z.le_refl _) E) as G1.
    pose proof (sync_latest_blocks_extends W (committed s) s r s1
                  (extends_refl _) E) as G2.
    cbv beta in G1, G2.
    split; [lia |]. split; [exact (extends_trans _ _ _ G2 H2) |].
    intros Hr. apply H3.
    exact (sync_latest_blocks_keeps_ok W s r s1 Hr E).
Qed.

Lemma passes_keep_the_store_growing_witness :
  ref_ok (committed initial_state) = true
  /\ ref_ok (committed (run_passes [unreachable_world; rejecting_world;
                                     healthy_world] initial_state)) = true.
Proof.
  split; [reflexivity |].
  destruct (passes_keep_the_store_growing
              [unreachable_world; rejecting_world; healthy_world]
              initial_state) as (_ & _ & H).
  apply H. reflexivity.
Defined.
